(** * ramenbooth: a terminal dashboard polling three Kubernetes clusters

    A shallow embedding of the dashboard program and the properties that
    its description states about the poller, the event handler [Update]
    and the renderer [View].

    The repository holds two revisions of the program. The later one,
    which also lists the DRPlacementControls of the hub, is embedded at
    the top level; the earlier one ([main.go]) is embedded in the module
    [MainGo]. The model, the messages and [Update] are the same in both.

    Modelling choices.
    - A Go slice of [clusterInfo] is a header (backing array, length) and
      the backing arrays live in a heap: the poll command mutates the
      array that the slice of the model aliases, one field at a time.
    - A Go slice of strings is a [list string]; the nil slice and the
      empty slice are both [[]] (the program only ranges over them, joins
      and prints them, which does not tell them apart).
    - Code that can panic or that calls a cluster runs in the monad [M]:
      state passing over the heap and the log of issued API calls, with
      an outcome that is either a value or a panic. The state reached at
      the moment of a panic is kept, as a crashed goroutine leaves it.
    - The Kubernetes client, the kubeconfig loader and lipgloss are
      outside the program: they are section variables. A box that
      lipgloss cannot draw is a panic.
    - The runtime runs the closure of a command in a goroutine. A poll
      round is also given as the list of its statements, and two rounds
      that overlap as an interleaving of their statements under a
      schedule. An interleaving of whole statements is one of the
      executions that the scheduler of Go allows; nothing is stated for
      all executions of overlapping rounds. *)

From stdpp Require Import base strings list gmap.
From Stdlib Require Import ZArith Lia.

(** * Part I: the program *)

(** ** The Kubernetes side *)

(** The only part of a listed object that the program reads. *)
Record ObjectMeta := { Name : string; Namespace : string }.

(** The three lists that the program asks a cluster for. *)
Inductive kind := NodeList | NamespaceList | DRPlacementControlList.

(** What a [List] call hands back: the items, or [err != nil]. *)
Inductive result (A : Type) := Ok (a : A) | Err.
Arguments Ok {A} a.
Arguments Err {A}.

(** A connected client, as far as one poll can observe it: its answer to
    each [List] call. *)
Record Client := { answer : kind → result (list ObjectMeta) }.

(** ** Slices and pointers *)

(** A slice header [[]clusterInfo]: the backing array and the length. The
    program never appends to or re-slices a slice once it is built, so
    the offset is 0 and the capacity is not needed. *)
Record slice := { base : positive; len : nat }.

(** [&s[i]]: a pointer to one element of a backing array. *)
Record elemPtr := { arr : positive; idx : nat }.

Definition elem (s : slice) (i : nat) : elemPtr :=
  {| arr := base s; idx := i |}.

(** [*[]clusterInfo]: a pointer to a slice header. The program takes such
    a pointer to the [clusters] field of a copy of the model that nothing
    writes afterwards, so the pointer is identified with the header that
    it points to. *)
Inductive slicePtr := AddrOf (s : slice).

Definition deref (p : slicePtr) : slice := let 'AddrOf s := p in s.

(** ** Heap, call log and the monad of effects *)

Inductive outcome (A : Type) := Done (a : A) | Panic.
Arguments Done {A} a.
Arguments Panic {A}.

Declare Scope go_scope.
Delimit Scope go_scope with go.

Section effects.
(** The element type of the backing arrays: the [clusterInfo] of either
    revision. *)
Context {T : Type}.

Record state := {
  heap : gmap positive (list T);
  calls : list kind
}.

Definition M (A : Type) : Type := state → outcome A * state.

Definition ret {A} (a : A) : M A := λ σ, (Done a, σ).

Definition bind {A B} (m : M A) (k : A → M B) : M B :=
  λ σ, match m σ with
       | (Done a, σ') => k a σ'
       | (Panic, σ') => (Panic, σ')
       end.

Definition panic {A} : M A := λ σ, (Panic, σ).

(** The element that a pointer designates. *)
Definition cell (σ : state) (p : elemPtr) : option T :=
  heap σ !! arr p ≫= λ a, a !! idx p.

Definition put (p : elemPtr) (c : T) (σ : state) : state :=
  {| heap := alter (λ a, <[idx p := c]> a) (arr p) (heap σ);
     calls := calls σ |}.

(** [*p] as a value. *)
Definition load (p : elemPtr) : M T :=
  λ σ, match cell σ p with
       | Some c => (Done c, σ)
       | None => (Panic, σ)
       end.

(** [p.f = v], with the field [f] given by its setter. *)
Definition assign (p : elemPtr) (setf : T → T) : M unit :=
  λ σ, match cell σ p with
       | Some c => (Done (), put p (setf c) σ)
       | None => (Panic, σ)
       end.

(** [&s[i]], with the bounds check of the indexing. *)
Definition index (s : slice) (i : nat) : M elemPtr :=
  if decide (i < len s) then ret (elem s i) else panic.

(** A fresh backing array. *)
Definition alloc (a : list T) : M positive :=
  λ σ, let l := fresh (dom (heap σ)) in
       (Done l, {| heap := <[l := a]> (heap σ); calls := calls σ |}).

Definition logCall (k : kind) (σ : state) : state :=
  {| heap := heap σ; calls := calls σ ++ [k] |}.

(** A [List] call on a client. The client is an interface value (a
    pointer in the earlier revision): calling a method of nil is a
    run-time panic. A call that is made is logged. *)
Definition List (kclient : option Client) (k : kind)
  : M (result (list ObjectMeta)) :=
  match kclient with
  | None => panic
  | Some cl => λ σ, (Done (answer cl k), logCall k σ)
  end.

End effects.

Arguments state : clear implicits.
Arguments M : clear implicits.

Notation "x <- e ;; k" := (bind e (λ x, k))
  (at level 100, e at next level, right associativity) : go_scope.
Notation "e ;;; k" := (bind e (λ _, k))
  (at level 100, right associativity) : go_scope.
Local Open Scope go_scope.

(** [for i := range s { body }]. *)
Fixpoint forRange {T} (body : nat → M T unit) (idxs : list nat) : M T unit :=
  match idxs with
  | [] => ret ()
  | i :: idxs => body i ;;; forRange body idxs
  end.

(** ** The model, the messages and the event handler *)

Record model := {
  clusters : slice;
  cursor : Z;
  width : Z;
  height : Z;
  ticker : option positive
}.

(** A [tea.Cmd] is a Go closure; the four that the program builds are
    kept as data. [PollCmd] is the closure returned by
    [updateClustersData] ([fetchClustersData] in the earlier revision),
    with the pointer that it captured. *)
#[warnings="-register-all"] Inductive Cmd :=
| Quit
| Tick (d : Z)
| PollCmd (clusters : slicePtr)
| Batch (cmds : list Cmd).

(** A [tea.Msg] is an empty interface; [Update] switches on its dynamic
    type. [KeyMsg] carries the value of [msg.String()]. *)
Inductive Msg :=
| ClustersMsg (msg : slice)
| ClustersPtrMsg (msg : slicePtr)
| WindowSizeMsg (Width Height : Z)
| KeyMsg (key : string)
| TimeMsg (t : Z)
| OtherMsg.

Definition updateClustersData (clusters : slicePtr) : Cmd := PollCmd clusters.

Definition tickCmd : Cmd := Tick 1000000000.

Definition Init (m : model) : option Cmd :=
  Some (Batch [updateClustersData (AddrOf (clusters m)); tickCmd]).

Definition set_clusters (v : slice) (m : model) : model :=
  {| clusters := v; cursor := cursor m;
     width := width m; height := height m; ticker := ticker m |}.

Definition set_cursor (v : Z) (m : model) : model :=
  {| clusters := clusters m; cursor := v;
     width := width m; height := height m; ticker := ticker m |}.

Definition set_size (w h : Z) (m : model) : model :=
  {| clusters := clusters m; cursor := cursor m;
     width := w; height := h; ticker := ticker m |}.

Definition key_in (key : string) (ks : list string) : bool :=
  existsb (String.eqb key) ks.

(** [cursor] is a Go [int]; the two guards keep [m.cursor--] and
    [m.cursor++] away from the ends of its range, so no wrap-around is
    written. *)
Definition Update (m : model) (msg : Msg) : model * option Cmd :=
  match msg with
  | ClustersMsg msg => (set_clusters msg m, None)
  | WindowSizeMsg Width Height => (set_size Width Height m, None)
  | KeyMsg key =>
      if key_in key ["ctrl+c"; "q"] then (m, Some Quit)
      else if key_in key ["up"; "k"] then
        ((if (0 <? cursor m)%Z then set_cursor (cursor m - 1) m else m), None)
      else if key_in key ["down"; "j"] then
        ((if (cursor m <? Z.of_nat (len (clusters m)) - 1)%Z
          then set_cursor (cursor m + 1) m else m), None)
      else (m, None)
  | TimeMsg _ =>
      (m, Some (Batch [updateClustersData (AddrOf (clusters m)); tickCmd]))
  | ClustersPtrMsg _ | OtherMsg => (m, None)
  end.

(** The handler run over a sequence of events, with the command that each
    event started. *)
Fixpoint runEvents (m : model) (evs : list Msg) : model * list (option Cmd) :=
  match evs with
  | [] => (m, [])
  | ev :: evs =>
      let '(m1, cmd) := Update m ev in
      let '(m2, cmds) := runEvents m1 evs in
      (m2, cmd :: cmds)
  end.

(** ** Formatting *)

Definition nl : string := String (Ascii.ascii_of_nat 10) EmptyString.

(** [strings.Join]. *)
Definition Join (elems : list string) (sep : string) : string :=
  String.concat sep elems.

(** [%s] applied to a [[]string]. *)
Definition fmt_strings (v : list string) : string :=
  "[" +:+ String.concat " " v +:+ "]".

(** ** The later revision: data *)

Record clusterInfo := {
  name : string;
  status : string;
  context : string;
  namespaces : list string;
  DRPCs : list string;
  hub : bool;
  managedcluster : bool
}.

Definition newClusterInfo (name context : string) (hub managedcluster : bool)
  : clusterInfo :=
  {| name := name; status := "Unknown"; context := context;
     namespaces := []; DRPCs := [];
     hub := hub; managedcluster := managedcluster |}.

(** The field assignments [c.status = v], [c.namespaces = v] and
    [c.DRPCs = v]. *)
Definition set_status (v : string) (c : clusterInfo) : clusterInfo :=
  {| name := name c; status := v; context := context c;
     namespaces := namespaces c; DRPCs := DRPCs c;
     hub := hub c; managedcluster := managedcluster c |}.

Definition set_namespaces (v : list string) (c : clusterInfo) : clusterInfo :=
  {| name := name c; status := status c; context := context c;
     namespaces := v; DRPCs := DRPCs c;
     hub := hub c; managedcluster := managedcluster c |}.

Definition set_DRPCs (v : list string) (c : clusterInfo) : clusterInfo :=
  {| name := name c; status := status c; context := context c;
     namespaces := namespaces c; DRPCs := v;
     hub := hub c; managedcluster := managedcluster c |}.

(** ** The later revision: the poller *)

Definition getClusterStatus (c : elemPtr) (kclient : option Client)
  : M clusterInfo string :=
  err <- List kclient NodeList ;;
  match err with
  | Err => ret "Error"
  | Ok _ => ret "Healthy"
  end.

Definition isRamenNamespace (n : string) : bool :=
  String.eqb n "ramen-system" ||
  String.eqb n "ramen-ops" ||
  String.eqb n "openshift-operators" ||
  String.eqb n "openshift-dr-system" ||
  String.eqb n "openshift-dr-ops".

Definition filterRamenNamespaces (namespaces : list ObjectMeta)
  : list string :=
  fold_left
    (λ filtered ns,
       if isRamenNamespace (Name ns) then filtered ++ [Name ns]
       else filtered)
    namespaces [].

Definition getNamespaces (kclient : option Client)
  : M clusterInfo (list ObjectMeta) :=
  err <- List kclient NamespaceList ;;
  match err with
  | Err => ret []
  | Ok items => ret items
  end.

Definition getRamenNamespaces (c : elemPtr) (kclient : option Client)
  : M clusterInfo (list string) :=
  ns <- getNamespaces kclient ;;
  ret (filterRamenNamespaces ns).

Definition getDRPCs (c : elemPtr) (kclient : option Client)
  : M clusterInfo (list string) :=
  ci <- load c ;;
  if negb (hub ci) then ret []
  else
    err <- List kclient DRPlacementControlList ;;
    match err with
    | Err => ret []
    | Ok items =>
        ret (fold_left (λ drpcNames drpc, drpcNames ++ [Name drpc]) items [])
    end.

Section poller.
(** [fetchClusterClient]: loads the kubeconfig and builds the client;
    [None] is the [nil] that it returns when either step fails. *)
Variable fetchClusterClient : string → option Client.

Definition updateClusterData (c : elemPtr) : M clusterInfo unit :=
  ci <- load c ;;
  let kclient := fetchClusterClient (context ci) in
  (match kclient with
   | None =>
       assign c (set_status "Error") ;;;
       assign c (set_namespaces [])
   | Some _ => ret ()
   end) ;;;
  s <- getClusterStatus c kclient ;;
  assign c (set_status s) ;;;
  ns <- getRamenNamespaces c kclient ;;
  assign c (set_namespaces ns) ;;;
  ds <- getDRPCs c kclient ;;
  assign c (set_DRPCs ds).

(** The body of the closure that [updateClustersData] returns. *)
Definition updateClustersData_run (clusters : slicePtr) : M clusterInfo Msg :=
  forRange
    (λ i, updateClusterData (elem (deref clusters) i))
    (seq 0 (len (deref clusters))) ;;;
  ret (ClustersPtrMsg clusters).

(** ** The later revision: a round, one statement at a time

    The runtime runs every command in a goroutine of its own, and
    [Update] starts a round at every tick without waiting for the round
    before; all of them are given the slice of the model. What the rounds
    leave in the array that they share depends on how the statements of
    one fall between those of another. The statements of
    [updateClusterData] follow, in the order of the source: each takes
    the local variable [kclient] of the call and hands it on. *)
Definition stmt : Type := option Client → M clusterInfo (option Client).

Definition updateClusterData_stmts (c : elemPtr) : list stmt :=
  [ (* kclient := fetchClusterClient(c.context) *)
    (λ _, ci <- load c ;; ret (fetchClusterClient (context ci)));
    (* if kclient == nil { c.status = "Error" *)
    (λ kclient,
       (match kclient with
        | None => assign c (set_status "Error")
        | Some _ => ret ()
        end) ;;; ret kclient);
    (* c.namespaces = []string{} } *)
    (λ kclient,
       (match kclient with
        | None => assign c (set_namespaces [])
        | Some _ => ret ()
        end) ;;; ret kclient);
    (* c.status = getClusterStatus(c, kclient) *)
    (λ kclient,
       s <- getClusterStatus c kclient ;;
       assign c (set_status s) ;;; ret kclient);
    (* c.namespaces = getRamenNamespaces(c, kclient) *)
    (λ kclient,
       ns <- getRamenNamespaces c kclient ;;
       assign c (set_namespaces ns) ;;; ret kclient);
    (* c.DRPCs = getDRPCs(c, kclient) *)
    (λ kclient,
       ds <- getDRPCs c kclient ;;
       assign c (set_DRPCs ds) ;;; ret kclient) ].

(** The statements of the loop of [updateClustersData]; the closure then
    returns its pointer. *)
Definition updateClustersData_stmts (clusters : slicePtr) : list stmt :=
  flat_map
    (λ i, updateClusterData_stmts (elem (deref clusters) i))
    (seq 0 (len (deref clusters))).

End poller.

(** Statements run one after another, by one goroutine left alone. *)
Fixpoint runStmts (stmts : list stmt) (kclient : option Client)
  : M clusterInfo (option Client) :=
  match stmts with
  | [] => ret kclient
  | st :: stmts => kclient <- st kclient ;; runStmts stmts kclient
  end.

(** A goroutine that runs a round: its local variable, and the statements
    that it has not run yet. *)
Record goroutine := { kclient : option Client; todo : list stmt }.

Definition spawn (stmts : list stmt) : goroutine :=
  {| kclient := None; todo := stmts |}.

(** The goroutine runs its next statement; one that has returned has
    nothing left to run. *)
Definition step (g : goroutine) : M clusterInfo goroutine :=
  match todo g with
  | [] => ret g
  | st :: stmts =>
      k <- st (kclient g) ;; ret {| kclient := k; todo := stmts |}
  end.

(** Two goroutines under a schedule that says, statement after
    statement, which of the two runs next: [true] for the first. A panic
    in either ends the program. *)
Fixpoint interleave (sched : list bool) (g1 g2 : goroutine)
  : M clusterInfo (goroutine * goroutine) :=
  match sched with
  | [] => ret (g1, g2)
  | true :: sched => g <- step g1 ;; interleave sched g g2
  | false :: sched => g <- step g2 ;; interleave sched g1 g
  end.

(** ** The later revision: the initial model *)

Section flags.
(** The three kubeconfig paths given on the command line. *)
Variables hubFlag dr1Flag dr2Flag : string.

(** The three appends leave one array of three elements behind; the
    shorter arrays that [append] outgrew are unreachable. *)
Definition initialModel : M clusterInfo model :=
  l <- alloc [newClusterInfo "Hub" hubFlag true false;
              newClusterInfo "DR1" dr1Flag false true;
              newClusterInfo "DR2" dr2Flag false true] ;;
  ret {| clusters := {| base := l; len := 3 |};
         cursor := 0; width := 0; height := 0; ticker := None |}.

End flags.

(** ** The later revision: the renderer *)

Section lipgloss.
Variable Position : Type.
Variables Top Left : Position.
(** [NewStyle().Border(NormalBorder(), true).Width(width).Height(height)
    .Align(Left).SetString(strs...).Render()]. The call pads the text to
    the width and the height that it is given and panics when it cannot,
    as on a width too large to allocate: [None] is that panic. *)
Variable RenderBox : Z → Z → list string → option string.
Variables JoinVertical JoinHorizontal : Position → list string → string.

Definition getHubStyle (cluster : elemPtr) (width height : Z)
  : M clusterInfo string :=
  c <- load cluster ;;
  let msg := [] in
  let msg := msg ++ [name c +:+ nl +:+ nl] in
  let msg := msg ++ ["Status: " +:+ status c +:+ nl] in
  let msg := msg ++ ["Namespaces: " +:+ Join (namespaces c) "," +:+ nl] in
  let msg := msg ++ ["DRPCs: " +:+ Join (DRPCs c) "," +:+ nl] in
  match RenderBox width height msg with
  | Some s => ret s
  | None => panic
  end.

Definition getManagedClusterStyle (cluster : elemPtr) (width height : Z)
  : M clusterInfo string :=
  c <- load cluster ;;
  let msg := [] in
  let msg := msg ++ [name c +:+ nl +:+ nl] in
  let msg := msg ++ ["Status: " +:+ status c +:+ nl] in
  let msg := msg ++ ["Namespaces: " +:+ fmt_strings (namespaces c) +:+ nl] in
  match RenderBox width height msg with
  | Some s => ret s
  | None => panic
  end.

(** Go's integer division truncates: [Z.quot]. *)
Definition View (m : model) : M clusterInfo string :=
  p0 <- index (clusters m) 0 ;;
  hubStyle <- getHubStyle p0 (width m) (height m ÷ 3) ;;
  p1 <- index (clusters m) 1 ;;
  dr1Style <- getManagedClusterStyle p1 (width m ÷ 2) (height m ÷ 2) ;;
  p2 <- index (clusters m) 2 ;;
  dr2Style <- getManagedClusterStyle p2 (width m ÷ 2) (height m ÷ 2) ;;
  let s := JoinVertical Top
             [hubStyle; JoinHorizontal Left [dr1Style; dr2Style]] in
  ret (s +:+ nl +:+ nl +:+ "Press q to quit." +:+ nl).

End lipgloss.

(** ** The earlier revision ([main.go]) *)

Module MainGo.

Record clusterInfo := {
  name : string;
  status : string;
  context : string;
  namespaces : list string;
  hub : bool;
  managedcluster : bool
}.

Definition set_status (v : string) (c : clusterInfo) : clusterInfo :=
  {| name := name c; status := v; context := context c;
     namespaces := namespaces c;
     hub := hub c; managedcluster := managedcluster c |}.

Definition set_namespaces (v : list string) (c : clusterInfo) : clusterInfo :=
  {| name := name c; status := status c; context := context c;
     namespaces := v;
     hub := hub c; managedcluster := managedcluster c |}.

(** [clientset.CoreV1().Nodes().List(...)]: on the nil clientset the
    first selector already dereferences nil. *)
Definition getClusterStatus (clientset : option Client)
  : M clusterInfo string :=
  err <- List clientset NodeList ;;
  match err with
  | Err => ret "Error"
  | Ok _ => ret "Healthy"
  end.

Definition isRamenNamespace (n : string) : bool :=
  String.eqb n "ramen-system" ||
  String.eqb n "ramen-ops" ||
  String.eqb n "openshift-operators" ||
  String.eqb n "openshift-dr-system".

Definition filterRamenNamespaces (namespaces : list ObjectMeta)
  : list string :=
  fold_left
    (λ filtered ns,
       if isRamenNamespace (Name ns) then filtered ++ [Name ns]
       else filtered)
    namespaces [].

Definition getNamespaces (clientset : option Client)
  : M clusterInfo (list ObjectMeta) :=
  err <- List clientset NamespaceList ;;
  match err with
  | Err => ret []
  | Ok items => ret items
  end.

Definition getRamenNamespaces (clientset : option Client)
  : M clusterInfo (list string) :=
  ns <- getNamespaces clientset ;;
  ret (filterRamenNamespaces ns).

Section poller.
Variable fetchClusterClient : string → option Client.

Definition updateClusterData (c : elemPtr) : M clusterInfo unit :=
  ci <- load c ;;
  let client := fetchClusterClient (context ci) in
  (match client with
   | None =>
       assign c (set_status "Error") ;;;
       assign c (set_namespaces [])
   | Some _ => ret ()
   end) ;;;
  s <- getClusterStatus client ;;
  assign c (set_status s) ;;;
  ns <- getRamenNamespaces client ;;
  assign c (set_namespaces ns).

(** The body of the closure that [fetchClustersData] returns. *)
Definition fetchClustersData_run (clusters : slicePtr) : M clusterInfo Msg :=
  forRange
    (λ i, updateClusterData (elem (deref clusters) i))
    (seq 0 (len (deref clusters))) ;;;
  ret (ClustersPtrMsg clusters).

End poller.

Definition fetchClustersData (clusters : slicePtr) : Cmd := PollCmd clusters.

Section flags.
Variables hubFlag dr1Flag dr2Flag : string.

Definition initialModel : M clusterInfo model :=
  l <- alloc [ {| name := "Hub"; status := "Unknown"; context := hubFlag;
                  namespaces := []; hub := true; managedcluster := false |};
               {| name := "DR1"; status := "Unknown"; context := dr1Flag;
                  namespaces := []; hub := false; managedcluster := true |};
               {| name := "DR2"; status := "Unknown"; context := dr2Flag;
                  namespaces := []; hub := false; managedcluster := true |} ] ;;
  ret {| clusters := {| base := l; len := 3 |};
         cursor := 0; width := 0; height := 0; ticker := None |}.

End flags.

Definition Init (m : model) : option Cmd :=
  Some (Batch [fetchClustersData (AddrOf (clusters m)); tickCmd]).

Definition Update (m : model) (msg : Msg) : model * option Cmd :=
  match msg with
  | ClustersMsg msg => (set_clusters msg m, None)
  | WindowSizeMsg Width Height => (set_size Width Height m, None)
  | KeyMsg key =>
      if key_in key ["ctrl+c"; "q"] then (m, Some Quit)
      else if key_in key ["up"; "k"] then
        ((if (0 <? cursor m)%Z then set_cursor (cursor m - 1) m else m), None)
      else if key_in key ["down"; "j"] then
        ((if (cursor m <? Z.of_nat (len (clusters m)) - 1)%Z
          then set_cursor (cursor m + 1) m else m), None)
      else (m, None)
  | TimeMsg _ =>
      (m, Some (Batch [fetchClustersData (AddrOf (clusters m)); tickCmd]))
  | ClustersPtrMsg _ | OtherMsg => (m, None)
  end.

Section lipgloss.
Variable Position : Type.
Variables Top Left : Position.
(** [None] is a panic inside [Render], as in the later revision. *)
Variable RenderBox : Z → Z → list string → option string.
Variables JoinVertical JoinHorizontal : Position → list string → string.

Definition getHubStyle (cluster : elemPtr) (width height : Z)
  : M clusterInfo string :=
  c <- load cluster ;;
  let msg := [] in
  let msg := msg ++ [name c +:+ nl +:+ nl] in
  let msg := msg ++ ["Status: " +:+ status c +:+ nl] in
  let msg := msg ++ ["Namespaces: " +:+ fmt_strings (namespaces c) +:+ nl] in
  match RenderBox width height msg with
  | Some s => ret s
  | None => panic
  end.

Definition getManagedClusterStyle
    (cluster : elemPtr) (width height : Z) (align : string)
  : M clusterInfo string :=
  c <- load cluster ;;
  let msg := [] in
  let msg := msg ++ [name c +:+ nl +:+ nl] in
  let msg := msg ++ ["Status: " +:+ status c +:+ nl] in
  let msg := msg ++ ["Namespaces: " +:+ fmt_strings (namespaces c) +:+ nl] in
  match RenderBox width height msg with
  | Some s => ret s
  | None => panic
  end.

Definition View (m : model) : M clusterInfo string :=
  p0 <- index (clusters m) 0 ;;
  hubStyle <- getHubStyle p0 (width m) (height m ÷ 3) ;;
  p1 <- index (clusters m) 1 ;;
  dr1Style <-
    getManagedClusterStyle p1 (width m ÷ 2) (height m ÷ 2) "left" ;;
  p2 <- index (clusters m) 2 ;;
  dr2Style <-
    getManagedClusterStyle p2 (width m ÷ 2) (height m ÷ 2) "right" ;;
  let s := JoinVertical Top
             [hubStyle; JoinHorizontal Left [dr1Style; dr2Style]] in
  ret (s +:+ nl +:+ nl +:+ "Press q to quit." +:+ nl).

End lipgloss.

End MainGo.

(** * Part II: notions used to state the properties *)

(** ** What one poll of one target computes *)

(** The allow-set of [filterRamenNamespaces], as a list of names. *)
Definition ramenNamespaces : list string :=
  ["ramen-system"; "ramen-ops"; "openshift-operators";
   "openshift-dr-system"; "openshift-dr-ops"].

(** The allow-set of the earlier revision. *)
Definition earlierRamenNamespaces : list string :=
  ["ramen-system"; "ramen-ops"; "openshift-operators"; "openshift-dr-system"].

(** The three status fields as functions of the answers that the client
    gave during one poll, and of the role of the target. *)
Definition statusOf (k : Client) : string :=
  match answer k NodeList with
  | Err => "Error"
  | Ok _ => "Healthy"
  end.

Definition namespacesOf (k : Client) : list string :=
  match answer k NamespaceList with
  | Err => []
  | Ok items => filter (.∈ ramenNamespaces) (Name <$> items)
  end.

Definition earlierNamespacesOf (k : Client) : list string :=
  match answer k NamespaceList with
  | Err => []
  | Ok items => filter (.∈ earlierRamenNamespaces) (Name <$> items)
  end.

Definition DRPCsOf (isHub : bool) (k : Client) : list string :=
  if isHub then
    match answer k DRPlacementControlList with
    | Err => []
    | Ok items => Name <$> items
    end
  else [].

Definition polled (k : Client) (c : clusterInfo) : clusterInfo :=
  {| name := name c; status := statusOf k; context := context c;
     namespaces := namespacesOf k; DRPCs := DRPCsOf (hub c) k;
     hub := hub c; managedcluster := managedcluster c |}.

(** The API calls of one poll, in the order in which they are issued. *)
Definition pollCalls (isHub : bool) : list kind :=
  [NodeList; NamespaceList] ++
  (if isHub then [DRPlacementControlList] else []).

(** The new value of an element whose client could be built. *)
Definition pollOne (fetchClusterClient : string → option Client)
    (c : clusterInfo) : clusterInfo :=
  match fetchClusterClient (context c) with
  | Some k => polled k c
  | None => c
  end.

Definition connected (fetchClusterClient : string → option Client)
    (c : clusterInfo) : Prop :=
  is_Some (fetchClusterClient (context c)).

(** ** Events and commands *)

(** [n] statuses and a cursor on one of them. *)
Definition in_range (n : nat) (m : model) : Prop :=
  len (clusters m) = n ∧ (0 ≤ cursor m ≤ Z.of_nat n - 1)%Z.

(** A batch carries one entry for each of the [n] targets; the other
    events, among them the message of a poll round, which is a pointer to
    the slice of the model, carry no statuses. *)
Definition batch_sized (n : nat) (ev : Msg) : Prop :=
  match ev with
  | ClustersMsg s => len s = n
  | _ => True
  end.

(** A command that starts a poll round or a tick, directly or inside a
    batch. *)
Fixpoint schedules (cmd : Cmd) : bool :=
  match cmd with
  | Quit => false
  | Tick _ => true
  | PollCmd _ => true
  | Batch cmds => existsb schedules cmds
  end.

Definition schedules_any (cmd : option Cmd) : bool :=
  from_option schedules false cmd.

Definition is_tick (ev : Msg) : bool :=
  match ev with
  | TimeMsg _ => true
  | _ => false
  end.

(** ** Sample clusters, to run the program on concrete inputs *)

Definition object (n : string) : ObjectMeta := {| Name := n; Namespace := "default" |}.

(** Every list call succeeds. *)
Definition healthyClient : Client :=
  {| answer := λ k,
       match k with
       | NodeList => Ok [object "node-1"]
       | NamespaceList =>
           Ok [object "default"; object "ramen-system"; object "kube-system";
               object "openshift-dr-ops"; object "ramen-ops"]
       | DRPlacementControlList => Ok [object "drpc-b"; object "drpc-a"]
       end |}.

(** The node listing fails, the other two listings succeed. *)
Definition degradedClient : Client :=
  {| answer := λ k,
       match k with
       | NodeList => Err
       | NamespaceList => Ok [object "ramen-system"]
       | DRPlacementControlList => Ok [object "drpc-a"]
       end |}.

(** A factory that cannot build a client for the kubeconfig ["missing"]. *)
Definition sampleFetch (kubeconfig : string) : option Client :=
  if String.eqb kubeconfig "missing" then None
  else if String.eqb kubeconfig "degraded" then Some degradedClient
  else Some healthyClient.

(** The same clusters a moment later: every node listing fails. *)
Definition degradedFetch (kubeconfig : string) : option Client :=
  Some degradedClient.

Definition emptyState : state clusterInfo := {| heap := ∅; calls := [] |}.

(** A schedule for two rounds over three clusters, eighteen statements
    each, that lets the second round poll the first cluster while the
    first round is between its health probe and its namespace listing:
    the first round looks up its client and writes the health, the second
    does all its six statements on the first cluster, the first writes
    the namespaces and the DRPCs; then the first round polls the other
    two clusters, and then the second. *)
Definition overlappingSchedule : list bool :=
  [true; true; true; true;
   false; false; false; false; false; false;
   true; true]
  ++ replicate 12 true ++ replicate 12 false.

(** The heap after [initialModel] with the given three flags. *)
Definition startState (hubFlag dr1Flag dr2Flag : string) : state clusterInfo :=
  (initialModel hubFlag dr1Flag dr2Flag emptyState).2.

Definition startModel : model :=
  {| clusters := {| base := 1; len := 3 |};
     cursor := 0; width := 0; height := 0; ticker := None |}.

Definition sampleClusters : list clusterInfo :=
  [newClusterInfo "Hub" "hub" true false;
   newClusterInfo "DR1" "degraded" false true;
   newClusterInfo "DR2" "dr2" false true].

(** ** Three sentences of the description, as they are written *)

(** A failed health probe ends the poll: one API call is issued and both
    list fields are empty. *)
Definition failed_health_probe_short_circuits : Prop :=
  ∀ fetchClusterClient σ p c k,
    cell σ p = Some c →
    fetchClusterClient (context c) = Some k →
    answer k NodeList = Err →
    ∃ σ' c',
      updateClusterData fetchClusterClient p σ = (Done (), σ') ∧
      cell σ' p = Some c' ∧
      status c' = "Error" ∧
      calls σ' = calls σ ++ [NodeList] ∧
      namespaces c' = [] ∧
      DRPCs c' = [].

(** Once the messages of two poll rounds have been handled, the health,
    the namespaces and the DRPCs of every target come from one and the
    same round, however the statements of the two rounds followed one
    another. *)
Definition statuses_come_from_one_attempt : Prop :=
  ∀ fetch1 fetch2 m σ a sched g1 g2 σ',
    heap σ !! base (clusters m) = Some a →
    len (clusters m) ≤ length a →
    let p := AddrOf (clusters m) in
    interleave sched
      (spawn (updateClustersData_stmts fetch1 p))
      (spawn (updateClustersData_stmts fetch2 p)) σ
    = (Done (g1, g2), σ') →
    todo g1 = [] →
    todo g2 = [] →
    let m' := (runEvents m [ClustersPtrMsg p; ClustersPtrMsg p]).1 in
    ∀ i c, i < len (clusters m) → a !! i = Some c →
      ∃ k, (fetch1 (context c) = Some k ∨ fetch2 (context c) = Some k) ∧
           cell σ' (elem (clusters m') i) = Some (polled k c).

(** Once the quit key has been handled, no event makes the handler start
    a poll round or a tick. *)
Definition nothing_scheduled_after_quit : Prop :=
  ∀ m evs,
    Forall (λ cmd, schedules_any cmd = false)
      (runEvents (Update m (KeyMsg "q")).1 evs).2.

(** ** Notions for the further properties *)

(** What a poll never writes: the name, the kubeconfig path and the two
    role flags of a cluster. *)
Definition same_identity (c c' : clusterInfo) : Prop :=
  name c' = name c ∧ context c' = context c ∧
  hub c' = hub c ∧ managedcluster c' = managedcluster c.

(** Two heaps that hold the same arrays, each with the same clusters in
    the same places, and that differ at most in the status fields of the
    array [b]. *)
Definition same_shape (b : positive) (σ σ' : state clusterInfo) : Prop :=
  ∀ l, (l ≠ b → heap σ' !! l = heap σ !! l) ∧
       option_Forall2 (Forall2 same_identity) (heap σ !! l) (heap σ' !! l).

(** A computation that, whatever its outcome, leaves a heap of the same
    shape. *)
Definition keeps (b : positive) {A} (m : M clusterInfo A) : Prop :=
  ∀ σ, same_shape b σ (m σ).2.

(** A computation that, whatever its outcome, leaves the state as it
    found it. *)
Definition reads {T A} (m : M T A) : Prop := ∀ σ, (m σ).2 = σ.

(** The heap after a sequence of poll rounds over one slice, one factory
    for each round, whether a round returns or panics. *)
Definition afterRounds (fetches : list (string → option Client))
    (clusters : slicePtr) (σ : state clusterInfo) : state clusterInfo :=
  foldl (λ σ fetch, (updateClustersData_run fetch clusters σ).2) σ fetches.

(** The events that carry no slice of clusters. *)
Definition is_batch (ev : Msg) : bool :=
  match ev with
  | ClustersMsg _ => true
  | _ => false
  end.

(** The poll rounds that a command starts, each by the pointer that it
    was given, and the timers that it starts, each by its duration,
    directly or inside a batch. *)
Fixpoint rounds_of (cmd : Cmd) : list slicePtr :=
  match cmd with
  | PollCmd p => [p]
  | Batch cmds => flat_map rounds_of cmds
  | Quit | Tick _ => []
  end.

Fixpoint timers_of (cmd : Cmd) : list Z :=
  match cmd with
  | Tick d => [d]
  | Batch cmds => flat_map timers_of cmds
  | Quit | PollCmd _ => []
  end.

(** What the commands of a run of the handler start, in order. *)
Definition started {A} (f : Cmd → list A) (cmds : list (option Cmd))
  : list A :=
  flat_map (from_option f []) cmds.

(** The events that are no batch, no resize and no move key. *)
Definition inert (ev : Msg) : bool :=
  match ev with
  | TimeMsg _ | ClustersPtrMsg _ | OtherMsg => true
  | KeyMsg key => negb (key_in key ["up"; "k"; "down"; "j"])
  | ClustersMsg _ | WindowSizeMsg _ _ => false
  end.

(** The fields of a cluster that a box of the frame shows: the DRPCs
    only in the box of the first cluster. *)
Definition shown_alike (first : bool) (c c' : clusterInfo) : Prop :=
  name c = name c' ∧ status c = status c' ∧
  namespaces c = namespaces c' ∧
  (first = true → DRPCs c = DRPCs c').

Definition emptyState0 : state MainGo.clusterInfo :=
  {| heap := ∅; calls := [] |}.

(** The heap of the earlier revision after its [initialModel]. *)
Definition startState0 (hubFlag dr1Flag dr2Flag : string)
  : state MainGo.clusterInfo :=
  (MainGo.initialModel hubFlag dr1Flag dr2Flag emptyState0).2.

(** A plain layout, in place of lipgloss, to run the renderer: a box is
    its lines on one row, and no box is drawn wider or higher than 10000
    cells. *)
Definition plainBox (width height : Z) (strs : list string) : option string :=
  if ((width <=? 10000) && (height <=? 10000))%Z
  then Some (String.concat " " strs)
  else None.

Definition plainVertical (pos : unit) (strs : list string) : string :=
  String.concat nl strs.

Definition plainHorizontal (pos : unit) (strs : list string) : string :=
  String.concat " | " strs.

(** * Part III: properties *)

(** ** Heap and monad *)

Section effects_facts.
Context {T : Type}.
Implicit Types (σ : state T) (p : elemPtr) (c : T).

Lemma cell_lookup σ p a :
  heap σ !! arr p = Some a → cell σ p = a !! idx p.
Proof. intros H. unfold cell. by rewrite H. Qed.

Lemma put_heap σ p c a :
  heap σ !! arr p = Some a →
  heap (put p c σ) = <[arr p := <[idx p := c]> a]> (heap σ).
Proof.
  intros H. unfold put; simpl. apply map_eq. intros l.
  rewrite lookup_alter, lookup_insert.
  destruct (decide (arr p = l)) as [<-|]; [by rewrite H|done].
Qed.

Lemma cell_put_eq σ p c :
  is_Some (cell σ p) → cell (put p c σ) p = Some c.
Proof.
  unfold cell. destruct (heap σ !! arr p) as [a|] eqn:Ha.
  - intros Hi. rewrite (put_heap _ _ _ _ Ha), lookup_insert_eq. simpl in *.
    apply list_lookup_insert_eq. by apply lookup_lt_is_Some.
  - by intros [? ?].
Qed.

Lemma put_put σ p c c' : put p c' (put p c σ) = put p c' σ.
Proof.
  unfold put; simpl. f_equal. apply map_eq. intros l.
  rewrite !lookup_alter. destruct (decide (arr p = l)); [|done].
  rewrite decide_True by done.
  destruct (heap σ !! arr p); simpl; [|done]. by rewrite list_insert_insert_eq.
Qed.

Lemma put_logCall σ k p c : put p c (logCall k σ) = logCall k (put p c σ).
Proof. done. Qed.

Lemma bind_Done {A B} (m : M T A) (f : A → M T B) σ a σ' :
  m σ = (Done a, σ') → bind m f σ = f a σ'.
Proof. intros H. unfold bind. by rewrite H. Qed.

Lemma bind_Panic {A B} (m : M T A) (f : A → M T B) σ σ' :
  m σ = (Panic, σ') → bind m f σ = (Panic, σ').
Proof. intros H. unfold bind. by rewrite H. Qed.

Lemma bind_assoc {A B C} (m : M T A) (f : A → M T B) (g : B → M T C) σ :
  bind (bind m f) g σ = bind m (λ a, bind (f a) g) σ.
Proof. unfold bind. destruct (m σ) as [[a|] σ']; done. Qed.

Lemma bind_ret_l {A B} (a : A) (f : A → M T B) σ : bind (ret a) f σ = f a σ.
Proof. done. Qed.

Lemma bind_ext {A B} (m : M T A) (f g : A → M T B) σ :
  (∀ a σ', f a σ' = g a σ') → bind m f σ = bind m g σ.
Proof.
  intros H. unfold bind. destruct (m σ) as [[a|] σ']; [apply H|done].
Qed.

Lemma bind_cong_l {A B} (m m' : M T A) (f : A → M T B) σ :
  m σ = m' σ → bind m f σ = bind m' f σ.
Proof. intros H. unfold bind. by rewrite H. Qed.

Lemma run_load σ p c : cell σ p = Some c → load p σ = (Done c, σ).
Proof. intros H. unfold load. by rewrite H. Qed.

Lemma run_assign σ p c setf :
  cell σ p = Some c → assign p setf σ = (Done (), put p (setf c) σ).
Proof. intros H. unfold assign. by rewrite H. Qed.

Lemma run_List σ cl k :
  List (Some cl) k σ = (Done (answer cl k), logCall k σ).
Proof. done. Qed.

Lemma run_List_nil σ k : List None k σ = (Panic, σ).
Proof. done. Qed.

End effects_facts.

(** Both sides of an equation between two computations brought to
    right-nested form, then compared step by step. *)
Ltac bind_norm := repeat first [rewrite bind_assoc | rewrite bind_ret_l].

Ltac bind_peel :=
  bind_norm; first [reflexivity | apply bind_ext; intros ? ?].

(** ** The two collecting loops *)

Lemma isRamenNamespace_spec n :
  isRamenNamespace n = true ↔ n ∈ ramenNamespaces.
Proof.
  unfold isRamenNamespace, ramenNamespaces.
  rewrite !orb_true_iff, !String.eqb_eq, !elem_of_cons, elem_of_nil.
  tauto.
Qed.

Lemma filterRamenNamespaces_acc items acc :
  fold_left
    (λ filtered ns,
       if isRamenNamespace (Name ns) then filtered ++ [Name ns] else filtered)
    items acc
  = acc ++ filter (.∈ ramenNamespaces) (Name <$> items).
Proof.
  revert acc. induction items as [|ns items IH]; intros acc; simpl.
  - by rewrite app_nil_r.
  - rewrite IH. destruct (isRamenNamespace (Name ns)) eqn:E.
    + apply isRamenNamespace_spec in E. rewrite filter_cons_True by done.
      by rewrite <- app_assoc.
    + rewrite filter_cons_False; [done|].
      intros Hin. apply isRamenNamespace_spec in Hin. congruence.
Qed.

Lemma filterRamenNamespaces_filter items :
  filterRamenNamespaces items = filter (.∈ ramenNamespaces) (Name <$> items).
Proof. apply filterRamenNamespaces_acc. Qed.

Lemma collect_names_acc (items : list ObjectMeta) acc :
  fold_left (λ drpcNames drpc, drpcNames ++ [Name drpc]) items acc
  = acc ++ (Name <$> items).
Proof.
  revert acc. induction items as [|d items IH]; intros acc; simpl.
  - by rewrite app_nil_r.
  - by rewrite IH, <- app_assoc.
Qed.

(** ** One poll of one target *)

Lemma run_getClusterStatus σ p k :
  getClusterStatus p (Some k) σ = (Done (statusOf k), logCall NodeList σ).
Proof.
  unfold getClusterStatus, statusOf.
  rewrite (bind_Done _ _ _ _ _ (run_List _ _ _)).
  by destruct (answer k NodeList).
Qed.

Lemma run_getRamenNamespaces σ p k :
  getRamenNamespaces p (Some k) σ
  = (Done (namespacesOf k), logCall NamespaceList σ).
Proof.
  unfold getRamenNamespaces, getNamespaces, namespacesOf.
  rewrite bind_assoc, (bind_Done _ _ _ _ _ (run_List _ _ _)).
  destruct (answer k NamespaceList) as [items|]; [|done].
  unfold bind, ret. by rewrite filterRamenNamespaces_filter.
Qed.

Lemma run_getDRPCs σ p c k :
  cell σ p = Some c →
  getDRPCs p (Some k) σ
  = (Done (DRPCsOf (hub c) k),
     if hub c then logCall DRPlacementControlList σ else σ).
Proof.
  intros Hc. unfold getDRPCs, DRPCsOf.
  rewrite (bind_Done _ _ _ _ _ (run_load _ _ _ Hc)).
  destruct (hub c); cbn [negb]; [|done].
  rewrite (bind_Done _ _ _ _ _ (run_List _ _ _)).
  destruct (answer k DRPlacementControlList) as [items|]; [|done].
  unfold ret. by rewrite collect_names_acc.
Qed.

Section poll_facts.
Variable fetchClusterClient : string → option Client.

Lemma updateClusterData_connected σ p c k :
  cell σ p = Some c →
  fetchClusterClient (context c) = Some k →
  updateClusterData fetchClusterClient p σ
  = (Done (), {| heap := heap (put p (polled k c) σ);
                 calls := calls σ ++ pollCalls (hub c) |}).
Proof.
  intros Hc Hk. unfold updateClusterData.
  rewrite (bind_Done _ _ _ _ _ (run_load _ _ _ Hc)), Hk.
  rewrite (bind_Done _ _ _ () σ) by done.
  rewrite (bind_Done _ _ _ _ _ (run_getClusterStatus _ _ _)).
  set (σ1 := logCall NodeList σ).
  assert (cell σ1 p = Some c) as H1 by done.
  rewrite (bind_Done _ _ _ _ _ (run_assign _ _ _ _ H1)).
  set (c1 := set_status (statusOf k) c). set (σ2 := put p c1 σ1).
  assert (cell σ2 p = Some c1) as H2 by (apply cell_put_eq; eauto).
  rewrite (bind_Done _ _ _ _ _ (run_getRamenNamespaces _ _ _)).
  set (σ3 := logCall NamespaceList σ2).
  assert (cell σ3 p = Some c1) as H3 by done.
  rewrite (bind_Done _ _ _ _ _ (run_assign _ _ _ _ H3)).
  set (c2 := set_namespaces (namespacesOf k) c1). set (σ4 := put p c2 σ3).
  assert (cell σ4 p = Some c2) as H4 by (apply cell_put_eq; eauto).
  rewrite (bind_Done _ _ _ _ _ (run_getDRPCs _ _ _ _ H4)).
  set (σ5 := if hub c2 then logCall DRPlacementControlList σ4 else σ4).
  assert (cell σ5 p = Some c2) as H5 by (subst σ5; by destruct (hub c2)).
  rewrite (run_assign _ _ _ _ H5).
  change (set_DRPCs (DRPCsOf (hub c2) k) c2) with (polled k c).
  f_equal. subst σ5 σ4 σ3 σ2 σ1. change (hub c2) with (hub c).
  destruct (hub c);
    rewrite ?put_logCall, !put_put; unfold logCall, pollCalls; simpl;
    by rewrite <- ?app_assoc.
Qed.

(** One round over a slice: every element is polled in place, in index
    order. *)
Lemma forRange_poll l n :
  ∀ i pre rest σ,
    heap σ !! l = Some (pre ++ rest) →
    length pre = i →
    n ≤ length rest →
    Forall (connected fetchClusterClient) (take n rest) →
    forRange
      (λ i, updateClusterData fetchClusterClient {| arr := l; idx := i |})
      (seq i n) σ
    = (Done (),
       {| heap := <[l := pre ++ (pollOne fetchClusterClient <$> take n rest)
                           ++ drop n rest]> (heap σ);
          calls := calls σ ++ (take n rest ≫= λ c, pollCalls (hub c)) |}).
Proof.
  induction n as [|n IH]; intros i pre rest σ Hl Hi Hn Hconn.
  - simpl. rewrite drop_0, app_nil_r, insert_id by done. by destruct σ.
  - destruct rest as [|c rest]; [simpl in Hn; lia|].
    simpl in Hn, Hconn. apply Forall_cons in Hconn as [[k Hk] Hconn].
    set (p := {| arr := l; idx := i |}).
    assert (cell σ p = Some c) as Hc.
    { rewrite (cell_lookup σ p _ Hl). simpl. subst i.
      by rewrite list_lookup_middle. }
    cbn [seq forRange].
    rewrite (bind_Done _ _ _ _ _ (updateClusterData_connected _ _ _ _ Hc Hk)).
    rewrite (put_heap σ p _ _ Hl). cbn [arr idx p].
    assert (<[i := polled k c]> (pre ++ c :: rest)
            = (pre ++ [polled k c]) ++ rest) as ->.
    { subst i. rewrite insert_app_r_alt, Nat.sub_diag by lia. simpl.
      by rewrite <- app_assoc. }
    rewrite (IH (S i) (pre ++ [polled k c]) rest); simpl.
    + rewrite insert_insert_eq. unfold pollOne at 2. rewrite Hk.
      by rewrite <- !app_assoc.
    + by rewrite lookup_insert_eq.
    + rewrite length_app. simpl. lia.
    + lia.
    + done.
Qed.

Lemma updateClustersData_run_connected σ s a :
  heap σ !! base s = Some a →
  len s ≤ length a →
  Forall (connected fetchClusterClient) (take (len s) a) →
  updateClustersData_run fetchClusterClient (AddrOf s) σ
  = (Done (ClustersPtrMsg (AddrOf s)),
     {| heap := <[base s := (pollOne fetchClusterClient <$> take (len s) a)
                            ++ drop (len s) a]> (heap σ);
        calls := calls σ ++ (take (len s) a ≫= λ c, pollCalls (hub c)) |}).
Proof.
  intros Ha Hlen Hconn. unfold updateClustersData_run. simpl.
  by rewrite (bind_Done _ _ _ _ _
                (forRange_poll (base s) (len s) 0 [] a σ Ha eq_refl Hlen Hconn)).
Qed.

Lemma round_cell σ s a i c k :
  heap σ !! base s = Some a →
  i < len s →
  a !! i = Some c →
  fetchClusterClient (context c) = Some k →
  cell {| heap := <[base s := (pollOne fetchClusterClient <$> take (len s) a)
                              ++ drop (len s) a]> (heap σ);
          calls := calls σ ++ (take (len s) a ≫= λ c, pollCalls (hub c)) |}
       (elem s i)
  = Some (polled k c).
Proof.
  intros Ha Hi Hc Hk. unfold cell. simpl. rewrite lookup_insert_eq. simpl.
  assert (i < length a) by (by eapply lookup_lt_Some).
  rewrite lookup_app_l by (rewrite length_fmap, length_take; lia).
  rewrite list_lookup_fmap, lookup_take_lt, Hc by done. simpl.
  unfold pollOne. by rewrite Hk.
Qed.

End poll_facts.

(** ** The poller *)

Section poller_claims.
Variable fetchClusterClient : string → option Client.

(** C2 (a defect of the code). When the factory returns nil for a target,
    [updateClusterData] records health "Error" and an empty namespace
    list but does not return there: it goes on to the health probe, whose
    [List] call on the nil client panics. The poll therefore yields no
    status at all; the element is left with the two fields just written
    and its previous DRPCs, and no API call has been logged. *)
Theorem updateClusterData_nil_client_panics σ p c :
  cell σ p = Some c →
  fetchClusterClient (context c) = None →
  updateClusterData fetchClusterClient p σ
  = (Panic, put p (set_namespaces [] (set_status "Error" c)) σ).
Proof.
  intros Hc Hk. unfold updateClusterData.
  rewrite (bind_Done _ _ _ _ _ (run_load _ _ _ Hc)), Hk.
  assert (cell (put p (set_status "Error" c) σ) p
          = Some (set_status "Error" c)) as H1
    by (apply cell_put_eq; eauto).
  rewrite (bind_Done (assign p (set_status "Error");;; _) _ σ ()
             (put p (set_namespaces [] (set_status "Error" c)) σ)).
  - unfold getClusterStatus. rewrite bind_assoc.
    apply bind_Panic, run_List_nil.
  - rewrite (bind_Done _ _ _ _ _ (run_assign _ _ _ _ Hc)).
    by rewrite (run_assign _ _ _ _ H1), put_put.
Qed.

(** C3 (as amended). When the client is built but the node listing
    fails, the poll sets health "Error" and carries on: the namespace
    listing is issued next, and on the hub the DRPlacementControl listing
    after it; the two list fields hold what those listings yield. *)
Theorem failed_health_probe_does_not_short_circuit σ p c k :
  cell σ p = Some c →
  fetchClusterClient (context c) = Some k →
  answer k NodeList = Err →
  ∃ σ' c',
    updateClusterData fetchClusterClient p σ = (Done (), σ') ∧
    cell σ' p = Some c' ∧
    status c' = "Error" ∧
    calls σ' = calls σ ++ [NodeList; NamespaceList] ++
               (if hub c then [DRPlacementControlList] else []) ∧
    namespaces c' = namespacesOf k ∧
    DRPCs c' = DRPCsOf (hub c) k.
Proof.
  intros Hc Hk Herr. eexists _, (polled k c).
  split; [by apply updateClusterData_connected|].
  split; [apply cell_put_eq; eauto|].
  repeat split. simpl. unfold statusOf. by rewrite Herr.
Qed.

(** C4. Whatever the cluster answers, a completed poll of a target that
    is not the hub leaves its DRPCs empty and never asks for the
    DRPlacementControl list; on the hub the DRPCs are the names of the
    listed resources, in the order of the listing. *)
Theorem DRPCs_follow_the_role σ p c k :
  cell σ p = Some c →
  fetchClusterClient (context c) = Some k →
  ∃ σ' c',
    updateClusterData fetchClusterClient p σ = (Done (), σ') ∧
    cell σ' p = Some c' ∧
    (hub c = false →
       DRPCs c' = [] ∧
       ∃ issued, calls σ' = calls σ ++ issued ∧
                 DRPlacementControlList ∉ issued) ∧
    (hub c = true →
       ∀ items, answer k DRPlacementControlList = Ok items →
                DRPCs c' = Name <$> items).
Proof.
  intros Hc Hk. eexists _, (polled k c).
  split; [by apply updateClusterData_connected|].
  split; [apply cell_put_eq; eauto|].
  split.
  - intros Hhub. simpl. rewrite Hhub. split; [done|].
    exists [NodeList; NamespaceList]. split; [done|].
    rewrite !elem_of_cons, elem_of_nil. intros [?|[?|[]]]; discriminate.
  - intros Hhub items Hitems. simpl. rewrite Hhub. simpl. by rewrite Hitems.
Qed.

(** C5. When the namespace listing succeeds, the namespaces of the polled
    target are the names of the listing that belong to the allow-set,
    compared as whole strings, in the order of the listing. *)
Theorem namespaces_are_the_allowed_subsequence σ p c k items :
  cell σ p = Some c →
  fetchClusterClient (context c) = Some k →
  answer k NamespaceList = Ok items →
  ∃ σ' c',
    updateClusterData fetchClusterClient p σ = (Done (), σ') ∧
    cell σ' p = Some c' ∧
    namespaces c' = filterRamenNamespaces items ∧
    namespaces c' = filter (.∈ ramenNamespaces) (Name <$> items) ∧
    namespaces c' `sublist_of` (Name <$> items) ∧
    ∀ n, n ∈ namespaces c' ↔ n ∈ (Name <$> items) ∧ n ∈ ramenNamespaces.
Proof.
  intros Hc Hk Hitems. eexists _, (polled k c).
  split; [by apply updateClusterData_connected|].
  split; [apply cell_put_eq; eauto|].
  simpl. unfold namespacesOf. rewrite Hitems.
  split; [by rewrite filterRamenNamespaces_filter|].
  split; [done|]. split; [apply sublist_filter|].
  intros n. rewrite list_elem_of_filter. tauto.
Qed.

End poller_claims.

Lemma updateClusterData_nil_client_panics_witness :
  cell (startState "hub" "dr1" "missing") (elem (clusters startModel) 2)
  = Some (newClusterInfo "DR2" "missing" false true) ∧
  sampleFetch "missing" = None ∧
  updateClusterData sampleFetch (elem (clusters startModel) 2)
    (startState "hub" "dr1" "missing")
  = (Panic,
     put (elem (clusters startModel) 2)
       (set_namespaces []
          (set_status "Error" (newClusterInfo "DR2" "missing" false true)))
       (startState "hub" "dr1" "missing")).
Proof.
  split; [vm_compute; reflexivity|]. split; [reflexivity|].
  apply (updateClusterData_nil_client_panics sampleFetch);
    vm_compute; reflexivity.
Defined.

(** C3 as it is written does not hold. The hub behind a client whose
    node listing fails: the namespaces and the DRPCs are listed all the
    same, and kept. *)
Lemma failed_health_probe_short_circuits_fails :
  ¬ failed_health_probe_short_circuits.
Proof.
  intros H.
  destruct (H sampleFetch (startState "degraded" "dr1" "dr2")
              (elem (clusters startModel) 0)
              (newClusterInfo "Hub" "degraded" true false) degradedClient)
    as (σ' & c' & Hrun & Hcell & _ & Hcalls & Hns & _);
    [vm_compute; reflexivity | reflexivity | reflexivity |].
  vm_compute in Hrun. injection Hrun as <-.
  vm_compute in Hcell. injection Hcell as <-.
  discriminate Hns.
Qed.

Lemma failed_health_probe_does_not_short_circuit_witness :
  cell (startState "degraded" "dr1" "dr2") (elem (clusters startModel) 0)
  = Some (newClusterInfo "Hub" "degraded" true false) ∧
  sampleFetch "degraded" = Some degradedClient ∧
  answer degradedClient NodeList = Err ∧
  ∃ σ' c',
    updateClusterData sampleFetch (elem (clusters startModel) 0)
      (startState "degraded" "dr1" "dr2") = (Done (), σ') ∧
    cell σ' (elem (clusters startModel) 0) = Some c' ∧
    status c' = "Error" ∧
    calls σ' = [NodeList; NamespaceList; DRPlacementControlList] ∧
    namespaces c' = ["ramen-system"] ∧
    DRPCs c' = ["drpc-a"].
Proof.
  split; [vm_compute; reflexivity|]. split; [reflexivity|].
  split; [reflexivity|].
  apply (failed_health_probe_does_not_short_circuit sampleFetch
           (startState "degraded" "dr1" "dr2") (elem (clusters startModel) 0)
           (newClusterInfo "Hub" "degraded" true false) degradedClient);
    vm_compute; reflexivity.
Defined.

Lemma DRPCs_follow_the_role_witness :
  cell (startState "hub" "dr1" "dr2") (elem (clusters startModel) 1)
  = Some (newClusterInfo "DR1" "dr1" false true) ∧
  sampleFetch "dr1" = Some healthyClient ∧
  ∃ σ' c',
    updateClusterData sampleFetch (elem (clusters startModel) 1)
      (startState "hub" "dr1" "dr2") = (Done (), σ') ∧
    cell σ' (elem (clusters startModel) 1) = Some c' ∧
    (false = false →
       DRPCs c' = [] ∧
       ∃ issued, calls σ' = [] ++ issued ∧ DRPlacementControlList ∉ issued) ∧
    (false = true →
       ∀ items, answer healthyClient DRPlacementControlList = Ok items →
                DRPCs c' = Name <$> items).
Proof.
  split; [vm_compute; reflexivity|]. split; [reflexivity|].
  apply (DRPCs_follow_the_role sampleFetch
           (startState "hub" "dr1" "dr2") (elem (clusters startModel) 1)
           (newClusterInfo "DR1" "dr1" false true) healthyClient);
    vm_compute; reflexivity.
Defined.

Lemma namespaces_are_the_allowed_subsequence_witness :
  cell (startState "hub" "dr1" "dr2") (elem (clusters startModel) 0)
  = Some (newClusterInfo "Hub" "hub" true false) ∧
  sampleFetch "hub" = Some healthyClient ∧
  answer healthyClient NamespaceList
  = Ok [object "default"; object "ramen-system"; object "kube-system";
        object "openshift-dr-ops"; object "ramen-ops"] ∧
  ∃ σ' c',
    updateClusterData sampleFetch (elem (clusters startModel) 0)
      (startState "hub" "dr1" "dr2") = (Done (), σ') ∧
    cell σ' (elem (clusters startModel) 0) = Some c' ∧
    namespaces c' = ["ramen-system"; "openshift-dr-ops"; "ramen-ops"].
Proof.
  split; [vm_compute; reflexivity|]. split; [reflexivity|].
  split; [reflexivity|].
  destruct (namespaces_are_the_allowed_subsequence sampleFetch
              (startState "hub" "dr1" "dr2") (elem (clusters startModel) 0)
              (newClusterInfo "Hub" "hub" true false) healthyClient _
              eq_refl eq_refl eq_refl)
    as (σ' & c' & Hrun & Hcell & Hns & _).
  exists σ', c'. split; [done|]. split; [done|].
  rewrite Hns. vm_compute. reflexivity.
Defined.

(** ** A whole round and the message that it delivers *)

Section round_claims.
Variable fetchClusterClient : string → option Client.

(** C9. The command that a tick (and [Init]) starts runs the round in
    place and hands back the pointer that it was given. [Update] has no
    case for a pointer to a slice: the message leaves any model as it is
    and starts nothing. The model never took a new slice, and yet the
    statuses seen through it are those of the round, because its slice
    shares the array that the command wrote. *)
Theorem poll_message_is_a_pointer_and_updates_in_place σ a m t :
  heap σ !! base (clusters m) = Some a →
  len (clusters m) ≤ length a →
  Forall (connected fetchClusterClient) (take (len (clusters m)) a) →
  let p := AddrOf (clusters m) in
  Init m = Some (Batch [PollCmd p; tickCmd]) ∧
  Update m (TimeMsg t) = (m, Some (Batch [PollCmd p; tickCmd])) ∧
  ∃ σ',
    updateClustersData_run fetchClusterClient p σ
    = (Done (ClustersPtrMsg p), σ') ∧
    (∀ s, ClustersPtrMsg p ≠ ClustersMsg s) ∧
    (∀ m', Update m' (ClustersPtrMsg p) = (m', None)) ∧
    ∀ i c, i < len (clusters m) → a !! i = Some c →
      cell σ (elem (clusters m) i) = Some c ∧
      ∃ k, fetchClusterClient (context c) = Some k ∧
           cell σ' (elem (clusters (Update m (ClustersPtrMsg p)).1) i)
           = Some (polled k c).
Proof.
  intros Ha Hlen Hconn p. split; [done|]. split; [done|].
  eexists. split; [by apply updateClustersData_run_connected|].
  split; [done|]. split; [done|].
  intros i c Hi Hc. split.
  - by rewrite (cell_lookup σ (elem (clusters m) i) a Ha).
  - assert (connected fetchClusterClient c) as [k Hk].
    { eapply Forall_lookup_1; [exact Hconn|]. by rewrite lookup_take_lt. }
    exists k. split; [done|]. by apply round_cell.
Qed.

End round_claims.

Lemma sampleClusters_connected :
  Forall (connected sampleFetch) (take 3 sampleClusters).
Proof. repeat (constructor; [by eexists|]). constructor. Qed.

Lemma poll_message_is_a_pointer_and_updates_in_place_witness :
  heap (startState "hub" "degraded" "dr2") !! base (clusters startModel)
  = Some sampleClusters ∧
  len (clusters startModel) ≤ length sampleClusters ∧
  Forall (connected sampleFetch)
    (take (len (clusters startModel)) sampleClusters) ∧
  Update startModel (TimeMsg 0)
  = (startModel,
     Some (Batch [PollCmd (AddrOf (clusters startModel)); tickCmd])) ∧
  ∃ σ',
    updateClustersData_run sampleFetch (AddrOf (clusters startModel))
      (startState "hub" "degraded" "dr2")
    = (Done (ClustersPtrMsg (AddrOf (clusters startModel))), σ') ∧
    Update startModel (ClustersPtrMsg (AddrOf (clusters startModel)))
    = (startModel, None) ∧
    cell (startState "hub" "degraded" "dr2") (elem (clusters startModel) 0)
    = Some (newClusterInfo "Hub" "hub" true false) ∧
    cell σ' (elem (clusters startModel) 0)
    = Some {| name := "Hub"; status := "Healthy"; context := "hub";
              namespaces := ["ramen-system"; "openshift-dr-ops"; "ramen-ops"];
              DRPCs := ["drpc-b"; "drpc-a"];
              hub := true; managedcluster := false |}.
Proof.
  assert (heap (startState "hub" "degraded" "dr2")
            !! base (clusters startModel) = Some sampleClusters) as Hheap
    by (vm_compute; reflexivity).
  assert (len (clusters startModel) ≤ length sampleClusters) as Hlen
    by (simpl; lia).
  split; [exact Hheap|]. split; [exact Hlen|].
  split; [exact sampleClusters_connected|].
  destruct (poll_message_is_a_pointer_and_updates_in_place sampleFetch
              (startState "hub" "degraded" "dr2") sampleClusters startModel
              0%Z Hheap Hlen sampleClusters_connected)
    as (_ & Htick & σ' & Hrun & _ & Hptr & Hcells).
  split; [exact Htick|].
  exists σ'. split; [exact Hrun|]. split; [exact (Hptr startModel)|].
  destruct (Hcells 0 (newClusterInfo "Hub" "hub" true false))
    as (Hbefore & k & Hk & Hcell); [simpl; lia | reflexivity |].
  split; [exact Hbefore|]. injection Hk as <-.
  etrans; [exact Hcell|]. vm_compute. reflexivity.
Defined.

(** ** The event handler *)

Lemma Update_in_range n m ev :
  in_range n m → batch_sized n ev → in_range n (Update m ev).1.
Proof.
  unfold in_range. intros [Hlen Hcur] Hev.
  destruct ev as [s|p|w h|key|t|]; cbn [Update batch_sized] in *;
    try (simpl; split; [done|lia]).
  destruct (key_in key ["ctrl+c"; "q"]); [by split|].
  destruct (key_in key ["up"; "k"]).
  { destruct (Z.ltb_spec 0 (cursor m)); simpl; split; try done; lia. }
  destruct (key_in key ["down"; "j"]); [|by split].
  destruct (Z.ltb_spec (cursor m) (Z.of_nat (len (clusters m)) - 1));
    simpl; split; try done; lia.
Qed.

Lemma runEvents_cons m ev evs :
  (runEvents m (ev :: evs)).1 = (runEvents (Update m ev).1 evs).1.
Proof.
  simpl. destruct (Update m ev) as [m1 cmd]. simpl.
  by destruct (runEvents m1 evs).
Qed.

Lemma runEvents_in_range n evs :
  ∀ m, in_range n m → Forall (batch_sized n) evs →
       in_range n (runEvents m evs).1.
Proof.
  induction evs as [|ev evs IH]; intros m Hm Hevs; [done|].
  apply Forall_cons in Hevs as [Hev Hevs]. rewrite runEvents_cons.
  apply IH; [|done]. by apply Update_in_range.
Qed.

Lemma repeated_up m j :
  (0 ≤ cursor m)%Z →
  cursor (runEvents m (repeat (KeyMsg "up") j)).1
  = Z.max 0 (cursor m - Z.of_nat j).
Proof.
  revert m. induction j as [|j IH]; intros m Hm.
  - simpl. lia.
  - cbn [repeat]. rewrite runEvents_cons.
    change (Update m (KeyMsg "up")).1
      with (if (0 <? cursor m)%Z then set_cursor (cursor m - 1) m else m).
    destruct (Z.ltb_spec 0 (cursor m)); rewrite IH; simpl; lia.
Qed.

Lemma repeated_down m j :
  (cursor m ≤ Z.of_nat (len (clusters m)) - 1)%Z →
  cursor (runEvents m (repeat (KeyMsg "down") j)).1
  = Z.min (Z.of_nat (len (clusters m)) - 1) (cursor m + Z.of_nat j).
Proof.
  revert m. induction j as [|j IH]; intros m Hm.
  - simpl. lia.
  - cbn [repeat]. rewrite runEvents_cons.
    change (Update m (KeyMsg "down")).1
      with (if (cursor m <? Z.of_nat (len (clusters m)) - 1)%Z
            then set_cursor (cursor m + 1) m else m).
    destruct (Z.ltb_spec (cursor m) (Z.of_nat (len (clusters m)) - 1));
      rewrite IH; simpl; lia.
Qed.

Lemma initialModel_in_range hubFlag dr1Flag dr2Flag σ0 :
  ∃ m σ, initialModel hubFlag dr1Flag dr2Flag σ0 = (Done m, σ) ∧
         in_range 3 m ∧
         heap σ !! base (clusters m)
         = Some [newClusterInfo "Hub" hubFlag true false;
                 newClusterInfo "DR1" dr1Flag false true;
                 newClusterInfo "DR2" dr2Flag false true].
Proof.
  eexists _, _. split; [reflexivity|]. split.
  - split; simpl; [done|lia].
  - simpl. by rewrite lookup_insert_eq.
Qed.

(** C6. From the initial model, over every sequence of events (keys,
    ticks, resizes, the messages of poll rounds, and batches, each with
    one entry for each of the three targets), the model keeps three
    statuses and a cursor within [0, 2]; moving up or down more often
    than there are targets leaves the cursor on the first or on the last
    target. *)
Theorem cursor_and_statuses_in_range hubFlag dr1Flag dr2Flag σ0 evs :
  Forall (batch_sized 3) evs →
  ∃ m σ,
    initialModel hubFlag dr1Flag dr2Flag σ0 = (Done m, σ) ∧
    let m' := (runEvents m evs).1 in
    len (clusters m') = 3 ∧
    (0 ≤ cursor m' ≤ 3 - 1)%Z ∧
    (∀ j, cursor (runEvents m' (repeat (KeyMsg "up") (2 + j))).1 = 0%Z) ∧
    (∀ j, cursor (runEvents m' (repeat (KeyMsg "down") (2 + j))).1 = 2%Z).
Proof.
  intros Hevs.
  destruct (initialModel_in_range hubFlag dr1Flag dr2Flag σ0)
    as (m & σ & Hinit & Hm & _).
  exists m, σ. split; [done|].
  destruct (runEvents_in_range 3 evs m Hm Hevs) as [Hlen Hcur].
  cbv zeta. split; [done|]. split; [lia|]. split; intros j.
  - rewrite repeated_up by lia. lia.
  - rewrite repeated_down by lia. lia.
Qed.

Lemma cursor_and_statuses_in_range_witness :
  Forall (batch_sized 3)
    [KeyMsg "down"; TimeMsg 0; ClustersMsg {| base := 1; len := 3 |};
     WindowSizeMsg 80 24; KeyMsg "j"; KeyMsg "j"; KeyMsg "up"] ∧
  ∃ m σ,
    initialModel "hub" "dr1" "dr2" emptyState = (Done m, σ) ∧
    let m' := (runEvents m
                 [KeyMsg "down"; TimeMsg 0;
                  ClustersMsg {| base := 1; len := 3 |};
                  WindowSizeMsg 80 24; KeyMsg "j"; KeyMsg "j"; KeyMsg "up"]).1
    in
    len (clusters m') = 3 ∧
    (0 ≤ cursor m' ≤ 3 - 1)%Z ∧
    (∀ j, cursor (runEvents m' (repeat (KeyMsg "up") (2 + j))).1 = 0%Z) ∧
    (∀ j, cursor (runEvents m' (repeat (KeyMsg "down") (2 + j))).1 = 2%Z).
Proof.
  split; [repeat constructor|].
  apply (cursor_and_statuses_in_range "hub" "dr1" "dr2" emptyState).
  repeat constructor.
Defined.

Lemma runEvents_resizes sizes :
  ∀ m, runEvents m ((λ wh, WindowSizeMsg wh.1 wh.2) <$> sizes)
       = (from_option (λ wh, set_size wh.1 wh.2 m) m (last sizes),
          replicate (length sizes) None).
Proof.
  induction sizes as [|[w h] sizes IH]; intros m; [done|].
  rewrite fmap_cons. cbn [runEvents Update fst snd]. rewrite IH.
  rewrite last_cons. f_equal. by destruct (last sizes).
Qed.

(** C7. A run of resize events changes the width and the height of the
    model, to those of the last event, and nothing else: the slice of
    statuses (hence the health, namespaces and DRPCs of every target, in
    any heap), the cursor and the ticker are as before, and no command is
    started. *)
Theorem resize_changes_only_the_viewport m (sizes : list (Z * Z)) :
  let evs := (λ wh, WindowSizeMsg wh.1 wh.2) <$> sizes in
  let m' := (runEvents m evs).1 in
  clusters m' = clusters m ∧
  cursor m' = cursor m ∧
  ticker m' = ticker m ∧
  (∀ (σ : state clusterInfo) i,
     cell σ (elem (clusters m') i) = cell σ (elem (clusters m) i)) ∧
  (width m', height m') = default (width m, height m) (last sizes) ∧
  Forall (λ cmd, cmd = None) (runEvents m evs).2.
Proof.
  cbv zeta. rewrite runEvents_resizes. cbn [fst snd].
  destruct (last sizes) as [[w h]|]; simpl;
    repeat split; by try apply Forall_replicate.
Qed.

Lemma Update_schedules_only_on_tick m ev :
  is_tick ev = false → schedules_any (Update m ev).2 = false.
Proof.
  destruct ev as [s|p|w h|key|t|]; try done. intros _. cbn [Update].
  destruct (key_in key ["ctrl+c"; "q"]); [done|].
  destruct (key_in key ["up"; "k"]); [done|].
  by destruct (key_in key ["down"; "j"]).
Qed.

Lemma runEvents_schedules_only_on_tick evs :
  ∀ m, Forall (λ ev, is_tick ev = false) evs →
       Forall (λ cmd, schedules_any cmd = false) (runEvents m evs).2.
Proof.
  induction evs as [|ev evs IH]; intros m Hevs; [by constructor|].
  apply Forall_cons in Hevs as [Hev Hevs]. cbn [runEvents].
  pose proof (Update_schedules_only_on_tick m ev Hev) as Hcmd.
  destruct (Update m ev) as [m1 cmd]. specialize (IH m1 Hevs).
  destruct (runEvents m1 evs) as [m2 cmds]. by constructor.
Qed.

(** C8 as it is written does not hold. A tick that is handled after the
    quit key starts a round and the next tick, as any tick does: the model
    records no termination. *)
Lemma nothing_scheduled_after_quit_fails : ¬ nothing_scheduled_after_quit.
Proof.
  intros H. specialize (H startModel [TimeMsg 0]).
  apply Forall_cons in H as [H _]. vm_compute in H. discriminate H.
Qed.

(** C8 (as amended). The quit key leaves the model as it is and starts
    the stop command alone. The model keeps no trace of it, so what stops
    the scheduling is the runtime, which delivers no tick after the stop:
    among the events handled after the quit key, none but a tick starts a
    poll round or a tick; a batch that arrives late is taken like any
    other and starts nothing. *)
Theorem quit_stops_and_only_ticks_schedule m key evs :
  key ∈ ["ctrl+c"; "q"] →
  Forall (λ ev, is_tick ev = false) evs →
  Update m (KeyMsg key) = (m, Some Quit) ∧
  schedules Quit = false ∧
  (∀ s, Update (Update m (KeyMsg key)).1 (ClustersMsg s)
        = (set_clusters s m, None)) ∧
  Forall (λ cmd, schedules_any cmd = false)
    (runEvents (Update m (KeyMsg key)).1 evs).2.
Proof.
  intros Hkey Hevs.
  assert (Update m (KeyMsg key) = (m, Some Quit)) as ->.
  { rewrite !elem_of_cons, elem_of_nil in Hkey.
    destruct Hkey as [->|[->|[]]]; reflexivity. }
  repeat split; [by apply runEvents_schedules_only_on_tick].
Qed.

Lemma quit_stops_and_only_ticks_schedule_witness :
  "q" ∈ ["ctrl+c"; "q"] ∧
  Forall (λ ev, is_tick ev = false)
    [ClustersMsg {| base := 1; len := 3 |}; KeyMsg "down";
     WindowSizeMsg 80 24; ClustersPtrMsg (AddrOf {| base := 1; len := 3 |})] ∧
  Update startModel (KeyMsg "q") = (startModel, Some Quit) ∧
  schedules Quit = false ∧
  (∀ s, Update (Update startModel (KeyMsg "q")).1 (ClustersMsg s)
        = (set_clusters s startModel, None)) ∧
  Forall (λ cmd, schedules_any cmd = false)
    (runEvents (Update startModel (KeyMsg "q")).1
       [ClustersMsg {| base := 1; len := 3 |}; KeyMsg "down";
        WindowSizeMsg 80 24;
        ClustersPtrMsg (AddrOf {| base := 1; len := 3 |})]).2.
Proof.
  assert ("q" ∈ ["ctrl+c"; "q"]) as Hkey
    by (rewrite !elem_of_cons; right; left; reflexivity).
  split; [exact Hkey|]. split; [repeat constructor|].
  apply (quit_stops_and_only_ticks_schedule startModel "q"
           [ClustersMsg {| base := 1; len := 3 |}; KeyMsg "down";
            WindowSizeMsg 80 24;
            ClustersPtrMsg (AddrOf {| base := 1; len := 3 |})] Hkey).
  repeat constructor.
Defined.

(** ** The renderer *)

Section view_claims.
Variable Position : Type.
Variables Top Left : Position.
Variable RenderBox : Z → Z → list string → option string.
Variables JoinVertical JoinHorizontal : Position → list string → string.

Local Abbreviation render :=
  (View Position Top Left RenderBox JoinVertical JoinHorizontal).

(** C10. [View] never reads the cursor: whatever the layout library
    draws, two models that differ in the cursor alone give the same
    frame (or the same panic), in every heap; so a move up or down
    changes nothing on the screen. *)
Theorem View_ignores_the_cursor m v σ :
  render (set_cursor v m) σ = render m σ ∧
  render (Update m (KeyMsg "up")).1 σ = render m σ ∧
  render (Update m (KeyMsg "k")).1 σ = render m σ ∧
  render (Update m (KeyMsg "down")).1 σ = render m σ ∧
  render (Update m (KeyMsg "j")).1 σ = render m σ.
Proof.
  split; [reflexivity|].
  change (Update m (KeyMsg "up")).1
    with (if (0 <? cursor m)%Z then set_cursor (cursor m - 1) m else m).
  change (Update m (KeyMsg "k")).1
    with (if (0 <? cursor m)%Z then set_cursor (cursor m - 1) m else m).
  change (Update m (KeyMsg "down")).1
    with (if (cursor m <? Z.of_nat (len (clusters m)) - 1)%Z
          then set_cursor (cursor m + 1) m else m).
  change (Update m (KeyMsg "j")).1
    with (if (cursor m <? Z.of_nat (len (clusters m)) - 1)%Z
          then set_cursor (cursor m + 1) m else m).
  destruct (0 <? cursor m)%Z,
    (cursor m <? Z.of_nat (len (clusters m)) - 1)%Z; done.
Qed.

End view_claims.

(** ** The earlier revision *)

(** The handler of the earlier revision is the same function: what is
    proved of [Update] and [Init] above holds of it as it stands. *)
Lemma main_go_Update_same m msg : MainGo.Update m msg = Update m msg.
Proof. by destruct msg. Qed.

Lemma main_go_Init_same m : MainGo.Init m = Init m.
Proof. done. Qed.

Lemma main_go_isRamenNamespace_spec n :
  MainGo.isRamenNamespace n = true ↔ n ∈ earlierRamenNamespaces.
Proof.
  unfold MainGo.isRamenNamespace, earlierRamenNamespaces.
  rewrite !orb_true_iff, !String.eqb_eq, !elem_of_cons, elem_of_nil.
  tauto.
Qed.

Lemma main_go_filterRamenNamespaces_acc items acc :
  fold_left
    (λ filtered ns,
       if MainGo.isRamenNamespace (Name ns) then filtered ++ [Name ns]
       else filtered)
    items acc
  = acc ++ filter (.∈ earlierRamenNamespaces) (Name <$> items).
Proof.
  revert acc. induction items as [|ns items IH]; intros acc; simpl.
  - by rewrite app_nil_r.
  - rewrite IH. destruct (MainGo.isRamenNamespace (Name ns)) eqn:E.
    + apply main_go_isRamenNamespace_spec in E.
      rewrite filter_cons_True by done. by rewrite <- app_assoc.
    + rewrite filter_cons_False; [done|].
      intros Hin. apply main_go_isRamenNamespace_spec in Hin. congruence.
Qed.

(** The filter of the earlier revision keeps, in the order of the
    listing, the names of its own allow-set, which has four names. *)
Lemma main_go_filterRamenNamespaces_filter items :
  MainGo.filterRamenNamespaces items
  = filter (.∈ earlierRamenNamespaces) (Name <$> items).
Proof. apply main_go_filterRamenNamespaces_acc. Qed.

Lemma main_go_run_getClusterStatus (σ : state MainGo.clusterInfo) k :
  MainGo.getClusterStatus (Some k) σ
  = (Done (statusOf k), logCall NodeList σ).
Proof.
  unfold MainGo.getClusterStatus, statusOf.
  rewrite (bind_Done _ _ _ _ _ (run_List _ _ _)).
  by destruct (answer k NodeList).
Qed.

Lemma main_go_run_getRamenNamespaces (σ : state MainGo.clusterInfo) k :
  MainGo.getRamenNamespaces (Some k) σ
  = (Done (earlierNamespacesOf k), logCall NamespaceList σ).
Proof.
  unfold MainGo.getRamenNamespaces, MainGo.getNamespaces, earlierNamespacesOf.
  rewrite bind_assoc, (bind_Done _ _ _ _ _ (run_List _ _ _)).
  destruct (answer k NamespaceList) as [items|]; [|done].
  unfold bind, ret. by rewrite main_go_filterRamenNamespaces_filter.
Qed.

Section main_go_poller.
Variable fetchClusterClient : string → option Client.

(** The earlier revision has the same fall-through after a nil client:
    the health probe dereferences the nil clientset and panics. *)
Lemma main_go_updateClusterData_nil_client_panics
    (σ : state MainGo.clusterInfo) p c :
  cell σ p = Some c →
  fetchClusterClient (MainGo.context c) = None →
  MainGo.updateClusterData fetchClusterClient p σ
  = (Panic,
     put p (MainGo.set_namespaces [] (MainGo.set_status "Error" c)) σ).
Proof.
  intros Hc Hk. unfold MainGo.updateClusterData.
  rewrite (bind_Done _ _ _ _ _ (run_load _ _ _ Hc)), Hk.
  assert (cell (put p (MainGo.set_status "Error" c) σ) p
          = Some (MainGo.set_status "Error" c)) as H1
    by (apply cell_put_eq; eauto).
  rewrite (bind_Done (assign p (MainGo.set_status "Error");;; _) _ σ ()
             (put p (MainGo.set_namespaces []
                       (MainGo.set_status "Error" c)) σ)).
  - unfold MainGo.getClusterStatus. rewrite bind_assoc.
    apply bind_Panic, run_List_nil.
  - rewrite (bind_Done _ _ _ _ _ (run_assign _ _ _ _ Hc)).
    by rewrite (run_assign _ _ _ _ H1), put_put.
Qed.

(** With a client, the poll of the earlier revision writes the health and
    the filtered namespaces, after two API calls. *)
Lemma main_go_updateClusterData_connected
    (σ : state MainGo.clusterInfo) p c k :
  cell σ p = Some c →
  fetchClusterClient (MainGo.context c) = Some k →
  MainGo.updateClusterData fetchClusterClient p σ
  = (Done (),
     {| heap :=
          heap (put p (MainGo.set_namespaces (earlierNamespacesOf k)
                         (MainGo.set_status (statusOf k) c)) σ);
        calls := calls σ ++ [NodeList; NamespaceList] |}).
Proof.
  intros Hc Hk. unfold MainGo.updateClusterData.
  rewrite (bind_Done _ _ _ _ _ (run_load _ _ _ Hc)), Hk.
  rewrite (bind_Done _ _ _ () σ) by done.
  rewrite (bind_Done _ _ _ _ _ (main_go_run_getClusterStatus _ _)).
  set (σ1 := logCall NodeList σ).
  assert (cell σ1 p = Some c) as H1 by done.
  rewrite (bind_Done _ _ _ _ _ (run_assign _ _ _ _ H1)).
  set (c1 := MainGo.set_status (statusOf k) c). set (σ2 := put p c1 σ1).
  assert (cell σ2 p = Some c1) as H2 by (apply cell_put_eq; eauto).
  rewrite (bind_Done _ _ _ _ _ (main_go_run_getRamenNamespaces _ _)).
  set (σ3 := logCall NamespaceList σ2).
  assert (cell σ3 p = Some c1) as H3 by done.
  rewrite (run_assign _ _ _ _ H3). f_equal.
  subst σ3 σ2 σ1. rewrite ?put_logCall, !put_put.
  unfold logCall; simpl. by rewrite <- ?app_assoc.
Qed.

(** When the round of the earlier revision returns, what it returns is
    the pointer that it was given. *)
Lemma main_go_fetchClustersData_run_message p σ msg σ' :
  MainGo.fetchClustersData_run fetchClusterClient p σ = (Done msg, σ') →
  msg = ClustersPtrMsg p.
Proof.
  unfold MainGo.fetchClustersData_run, bind, ret.
  destruct (forRange _ _ σ) as [[[]|] σ1]; congruence.
Qed.

End main_go_poller.

Section main_go_view.
Variable Position : Type.
Variables Top Left : Position.
Variable RenderBox : Z → Z → list string → option string.
Variables JoinVertical JoinHorizontal : Position → list string → string.

(** The renderer of the earlier revision does not read the cursor
    either. *)
Lemma main_go_View_ignores_the_cursor m v σ :
  MainGo.View Position Top Left RenderBox JoinVertical JoinHorizontal
    (set_cursor v m) σ
  = MainGo.View Position Top Left RenderBox JoinVertical JoinHorizontal m σ.
Proof. reflexivity. Qed.

End main_go_view.

(** * Part IV: further properties of the code *)

(** ** What a round keeps, even when it panics *)

Lemma same_identity_refl c : same_identity c c.
Proof. by repeat split. Qed.

Lemma same_identity_trans c1 c2 c3 :
  same_identity c1 c2 → same_identity c2 c3 → same_identity c1 c3.
Proof.
  intros (?&?&?&?) (?&?&?&?). repeat split; congruence.
Qed.

Lemma same_shape_refl b σ : same_shape b σ σ.
Proof.
  intros l. split; [done|]. destruct (heap σ !! l) as [a|]; constructor.
  apply Forall2_same_length_lookup. split; [done|].
  intros i c c' H1 H2. rewrite H1 in H2. injection H2 as <-.
  apply same_identity_refl.
Qed.

Lemma same_shape_trans b σ1 σ2 σ3 :
  same_shape b σ1 σ2 → same_shape b σ2 σ3 → same_shape b σ1 σ3.
Proof.
  intros H12 H23 l. destruct (H12 l) as [Hne12 Ha12].
  destruct (H23 l) as [Hne23 Ha23]. split.
  - intros Hl. by rewrite Hne23, Hne12.
  - destruct Ha12 as [a1 a2 Ha|]; inversion Ha23 as [a2' a3 Ha' E1 E2|];
      subst; constructor.
    eapply Forall2_trans; [|exact Ha|exact Ha'].
    intros c1 c2 c3. apply same_identity_trans.
Qed.

Lemma keeps_ret b {A} (a : A) : keeps b (ret a).
Proof. intros σ. apply same_shape_refl. Qed.

Lemma keeps_bind b {A B} (m : M clusterInfo A) (k : A → M clusterInfo B) :
  keeps b m → (∀ a, keeps b (k a)) → keeps b (bind m k).
Proof.
  intros Hm Hk σ. unfold bind. specialize (Hm σ).
  destruct (m σ) as [[a|] σ1]; simpl in *; [|done].
  eapply same_shape_trans; [exact Hm|]. apply Hk.
Qed.

Lemma keeps_load b p : keeps b (load p).
Proof.
  intros σ. unfold load. destruct (cell σ p); apply same_shape_refl.
Qed.

Lemma keeps_List b kclient k : keeps b (List kclient k).
Proof.
  intros σ. destruct kclient; simpl; apply (same_shape_refl b σ).
Qed.

Lemma keeps_assign b p setf :
  arr p = b → (∀ c, same_identity c (setf c)) → keeps b (assign p setf).
Proof.
  intros Hp Hf σ. unfold assign.
  destruct (cell σ p) as [c|] eqn:Hc; [|apply same_shape_refl].
  simpl. intros l. unfold put; simpl. split.
  - intros Hl. apply lookup_alter_ne. congruence.
  - rewrite lookup_alter. unfold cell in Hc.
    destruct (decide (arr p = l)) as [<-|];
      [|by destruct (same_shape_refl b σ l)].
    destruct (heap σ !! arr p) as [a|]; simpl in *; [|constructor].
    constructor. rewrite <- (list_insert_id a (idx p) c) at 1 by done.
    apply Forall2_insert; [|apply Hf].
    apply Forall2_same_length_lookup. split; [done|].
    intros i x y H1 H2. rewrite H1 in H2. injection H2 as <-.
    apply same_identity_refl.
Qed.

Lemma keeps_updateClusterData fetchClusterClient p :
  keeps (arr p) (updateClusterData fetchClusterClient p).
Proof.
  unfold updateClusterData, getClusterStatus, getRamenNamespaces,
    getNamespaces, getDRPCs.
  repeat first
    [ apply keeps_bind; [|intros ?]
    | apply keeps_load
    | apply keeps_List
    | apply keeps_ret
    | apply keeps_assign; [done | intros ?; by repeat split]
    | match goal with
      | |- keeps _ (match ?x with _ => _ end) => destruct x
      end ].
Qed.

Lemma keeps_forRange b body idxs :
  (∀ i, keeps b (body i)) → keeps b (forRange body idxs).
Proof.
  intros Hbody. induction idxs as [|i idxs IH]; simpl.
  - apply keeps_ret.
  - apply keeps_bind; [apply Hbody|]. intros _. exact IH.
Qed.

Lemma keeps_updateClustersData_run fetchClusterClient p :
  keeps (base (deref p)) (updateClustersData_run fetchClusterClient p).
Proof.
  unfold updateClustersData_run. apply keeps_bind.
  - apply keeps_forRange. intros i.
    apply (keeps_updateClusterData fetchClusterClient (elem (deref p) i)).
  - intros _. apply keeps_ret.
Qed.

(** X1. A poll round, whether it returns or panics, whatever the clients
    answer and whatever the heap holds, writes no array but the one of
    its slice, and in that array changes neither the number of clusters
    nor the name, the kubeconfig path or the role flags of any of
    them. *)
Theorem round_keeps_the_clusters fetchClusterClient p σ l a :
  heap σ !! l = Some a →
  ∃ a',
    heap (updateClustersData_run fetchClusterClient p σ).2 !! l = Some a' ∧
    length a' = length a ∧
    (l ≠ base (deref p) → a' = a) ∧
    ∀ i c, a !! i = Some c →
      ∃ c', a' !! i = Some c' ∧
            name c' = name c ∧ context c' = context c ∧
            hub c' = hub c ∧ managedcluster c' = managedcluster c.
Proof.
  intros Ha.
  destruct (keeps_updateClustersData_run fetchClusterClient p σ l)
    as [Hne Hsh].
  rewrite Ha in Hsh. inversion Hsh as [x a' Hall E1 E2|]. subst x.
  exists a'. split; [done|]. split; [symmetry; by eapply Forall2_length|].
  split.
  - intros Hl. specialize (Hne Hl). rewrite Ha in Hne. congruence.
  - intros i c Hc.
    destruct (Forall2_lookup_l _ _ _ _ _ Hall Hc) as (c' & Hc' & Hid).
    exists c'. split; [done|]. exact Hid.
Qed.

Lemma round_keeps_the_clusters_witness :
  heap (startState "hub" "missing" "dr2") !! 1%positive
  = Some [newClusterInfo "Hub" "hub" true false;
          newClusterInfo "DR1" "missing" false true;
          newClusterInfo "DR2" "dr2" false true] ∧
  ∃ a',
    heap (updateClustersData_run sampleFetch (AddrOf (clusters startModel))
            (startState "hub" "missing" "dr2")).2 !! 1%positive = Some a' ∧
    length a' = 3 ∧
    (1%positive ≠ base (deref (AddrOf (clusters startModel))) →
     a' = [newClusterInfo "Hub" "hub" true false;
           newClusterInfo "DR1" "missing" false true;
           newClusterInfo "DR2" "dr2" false true]) ∧
    ∀ i c,
      [newClusterInfo "Hub" "hub" true false;
       newClusterInfo "DR1" "missing" false true;
       newClusterInfo "DR2" "dr2" false true] !! i = Some c →
      ∃ c', a' !! i = Some c' ∧
            name c' = name c ∧ context c' = context c ∧
            hub c' = hub c ∧ managedcluster c' = managedcluster c.
Proof.
  split; [vm_compute; reflexivity|].
  apply (round_keeps_the_clusters sampleFetch (AddrOf (clusters startModel))
           (startState "hub" "missing" "dr2") 1%positive
           [newClusterInfo "Hub" "hub" true false;
            newClusterInfo "DR1" "missing" false true;
            newClusterInfo "DR2" "dr2" false true]).
  vm_compute; reflexivity.
Defined.

(** ** A round that meets a nil client *)

Lemma forRange_app {T} (body : nat → M T unit) l1 l2 σ :
  forRange body (l1 ++ l2) σ
  = bind (forRange body l1) (λ _, forRange body l2) σ.
Proof.
  revert σ. induction l1 as [|i l1 IH]; intros σ; [done|].
  cbn [app forRange]. rewrite bind_assoc. unfold bind at 1. unfold bind at 1.
  destruct (body i σ) as [[[]|] σ1]; [apply IH|done].
Qed.

Section round_more.
Variable fetchClusterClient : string → option Client.

Lemma run_updateClusterData_nil σ p c :
  cell σ p = Some c →
  fetchClusterClient (context c) = None →
  updateClusterData fetchClusterClient p σ
  = (Panic, put p (set_namespaces [] (set_status "Error" c)) σ).
Proof.
  intros Hc Hk. unfold updateClusterData.
  rewrite (bind_Done _ _ _ _ _ (run_load _ _ _ Hc)), Hk.
  assert (cell (put p (set_status "Error" c) σ) p
          = Some (set_status "Error" c)) as H1
    by (apply cell_put_eq; eauto).
  rewrite (bind_Done (assign p (set_status "Error");;; _) _ σ ()
             (put p (set_namespaces [] (set_status "Error" c)) σ)).
  - unfold getClusterStatus. rewrite bind_assoc.
    apply bind_Panic, run_List_nil.
  - rewrite (bind_Done _ _ _ _ _ (run_assign _ _ _ _ Hc)).
    by rewrite (run_assign _ _ _ _ H1), put_put.
Qed.

Lemma round_stops_at_nil_client σ s pre c rest :
  heap σ !! base s = Some (pre ++ c :: rest) →
  length pre < len s →
  Forall (connected fetchClusterClient) pre →
  fetchClusterClient (context c) = None →
  updateClustersData_run fetchClusterClient (AddrOf s) σ
  = (Panic,
     {| heap := <[base s := (pollOne fetchClusterClient <$> pre)
                            ++ set_namespaces [] (set_status "Error" c)
                            :: rest]> (heap σ);
        calls := calls σ ++ (pre ≫= λ c, pollCalls (hub c)) |}).
Proof.
  intros Ha Hlen Hconn Hk. unfold updateClustersData_run. simpl.
  apply bind_Panic.
  replace (len s) with (length pre + (len s - length pre)) by lia.
  rewrite seq_app, forRange_app. simpl.
  assert (take (length pre) (pre ++ c :: rest) = pre) as Htake
    by (by rewrite take_app_length).
  assert (drop (length pre) (pre ++ c :: rest) = c :: rest) as Hdrop
    by (by rewrite drop_app_length).
  rewrite (bind_Done _ _ _ _ _
             (forRange_poll fetchClusterClient (base s) (length pre) 0 []
                (pre ++ c :: rest) σ Ha eq_refl
                ltac:(rewrite length_app; lia)
                ltac:(by rewrite Htake))).
  rewrite Htake, Hdrop. simpl.
  destruct (len s - length pre) as [|n] eqn:E; [lia|]. cbn [seq forRange].
  apply bind_Panic.
  set (σ1 := {| heap := _; calls := _ |}).
  set (p := elem s (length pre)).
  assert (heap σ1 !! arr p
          = Some ((pollOne fetchClusterClient <$> pre) ++ c :: rest)) as H1
    by (simpl; by rewrite lookup_insert_eq).
  assert (cell σ1 p = Some c) as Hc.
  { rewrite (cell_lookup σ1 p _ H1). simpl.
    rewrite lookup_app_r by (by rewrite length_fmap).
    by rewrite length_fmap, Nat.sub_diag. }
  rewrite (run_updateClusterData_nil σ1 p c Hc Hk).
  f_equal. unfold put. simpl. f_equal.
  apply map_eq. intros l. rewrite lookup_alter.
  destruct (decide (base s = l)) as [<-|].
  - rewrite !lookup_insert_eq. simpl. f_equal.
    rewrite insert_app_r_alt by (by rewrite length_fmap).
    by rewrite length_fmap, Nat.sub_diag.
  - by rewrite !lookup_insert_ne.
Qed.

(** X2. A round stops at the first cluster whose client cannot be built:
    the clusters before it have been polled, that cluster is left with
    health "Error", no namespaces and the DRPCs that it had, the clusters
    after it are not polled at all, and the round panics instead of
    delivering a message. *)
Theorem round_aborts_at_first_nil_client σ s pre c rest :
  heap σ !! base s = Some (pre ++ c :: rest) →
  length pre < len s →
  Forall (connected fetchClusterClient) pre →
  fetchClusterClient (context c) = None →
  updateClustersData_run fetchClusterClient (AddrOf s) σ
  = (Panic,
     {| heap := <[base s := (pollOne fetchClusterClient <$> pre)
                            ++ set_namespaces [] (set_status "Error" c)
                            :: rest]> (heap σ);
        calls := calls σ ++ (pre ≫= λ c, pollCalls (hub c)) |}).
Proof. apply round_stops_at_nil_client. Qed.

(** A round returns only if every client could be built. *)
Lemma first_nil_client (l : list clusterInfo) :
  Forall (connected fetchClusterClient) l ∨
  ∃ pre c rest,
    l = pre ++ c :: rest ∧
    Forall (connected fetchClusterClient) pre ∧
    fetchClusterClient (context c) = None.
Proof.
  induction l as [|c l IH]; [left; constructor|].
  destruct (fetchClusterClient (context c)) as [k|] eqn:Hk.
  - destruct IH as [Hl|(pre & c' & rest & -> & Hpre & Hc')].
    + left. constructor; [by exists k|done].
    + right. exists (c :: pre), c', rest.
      split; [done|]. split; [|done]. constructor; [by exists k|done].
  - right. by exists [], c, l.
Qed.

Lemma round_returns_connected σ s a msg σ' :
  heap σ !! base s = Some a →
  len s ≤ length a →
  updateClustersData_run fetchClusterClient (AddrOf s) σ = (Done msg, σ') →
  Forall (connected fetchClusterClient) (take (len s) a).
Proof.
  intros Ha Hlen Hrun.
  destruct (first_nil_client (take (len s) a))
    as [?|(pre & c & rest & Htake & Hpre & Hc)]; [done|].
  assert (length pre < len s) as Hpre_len.
  { apply (f_equal length) in Htake.
    rewrite length_take, length_app in Htake. simpl in Htake. lia. }
  rewrite <- (take_drop (len s) a), Htake, <- app_assoc in Ha.
  simpl in Ha.
  by rewrite (round_stops_at_nil_client σ s pre c _ Ha Hpre_len Hpre Hc)
    in Hrun.
Qed.

Lemma pollOne_connected c :
  connected fetchClusterClient c →
  connected fetchClusterClient (pollOne fetchClusterClient c).
Proof. intros [k Hk]. unfold pollOne. rewrite Hk. by exists k. Qed.

Lemma pollOne_idemp c :
  pollOne fetchClusterClient (pollOne fetchClusterClient c)
  = pollOne fetchClusterClient c.
Proof.
  unfold pollOne. destruct (fetchClusterClient (context c)) as [k|] eqn:Hk.
  - simpl. by rewrite Hk.
  - by rewrite Hk.
Qed.

Lemma pollCalls_pollOne (l : list clusterInfo) :
  (pollOne fetchClusterClient <$> l) ≫= (λ c, pollCalls (hub c))
  = l ≫= λ c, pollCalls (hub c).
Proof.
  induction l as [|c l IH]; [done|].
  rewrite fmap_cons, !bind_cons, IH. f_equal. unfold pollOne.
  by destruct (fetchClusterClient (context c)).
Qed.

(** X3. Two rounds in a row whose clients give the same answers leave
    the statuses that one round leaves: a poll computes the three status
    fields afresh and keeps nothing of the previous ones. Only the API
    calls are issued twice. *)
Theorem second_round_changes_nothing σ s a :
  heap σ !! base s = Some a →
  len s ≤ length a →
  Forall (connected fetchClusterClient) (take (len s) a) →
  ∃ σ1 σ2,
    updateClustersData_run fetchClusterClient (AddrOf s) σ
    = (Done (ClustersPtrMsg (AddrOf s)), σ1) ∧
    updateClustersData_run fetchClusterClient (AddrOf s) σ1
    = (Done (ClustersPtrMsg (AddrOf s)), σ2) ∧
    heap σ2 = heap σ1 ∧
    calls σ2 = calls σ ++ (take (len s) a ≫= λ c, pollCalls (hub c))
                       ++ (take (len s) a ≫= λ c, pollCalls (hub c)).
Proof.
  intros Ha Hlen Hconn.
  remember ((pollOne fetchClusterClient <$> take (len s) a)
            ++ drop (len s) a) as a1 eqn:Ea1.
  assert (take (len s) a1 = pollOne fetchClusterClient <$> take (len s) a)
    as Htake.
  { subst a1. rewrite take_app_length'; [done|].
    rewrite length_fmap, length_take. lia. }
  assert (drop (len s) a1 = drop (len s) a) as Hdrop.
  { subst a1. rewrite drop_app_length'; [done|].
    rewrite length_fmap, length_take. lia. }
  eexists _, _.
  split; [by apply updateClustersData_run_connected|].
  rewrite <- Ea1.
  split.
  - apply (updateClustersData_run_connected fetchClusterClient _ s a1).
    + simpl. by rewrite lookup_insert_eq.
    + subst a1. rewrite length_app, length_fmap, length_take, length_drop.
      lia.
    + rewrite Htake. apply Forall_fmap.
      eapply Forall_impl; [exact Hconn|]. apply pollOne_connected.
  - cbn [heap calls]. rewrite Htake, Hdrop, insert_insert_eq. split.
    + f_equal. rewrite <- list_fmap_compose. subst a1. f_equal.
      apply list_fmap_ext. intros i c _. apply pollOne_idemp.
    + by rewrite <- app_assoc, pollCalls_pollOne.
Qed.

Lemma pollCalls_length (l : list clusterInfo) :
  length (l ≫= λ c, pollCalls (hub c))
  = 2 * length l + length (filter (λ c, hub c = true) l).
Proof.
  induction l as [|c l IH]; [done|].
  rewrite bind_cons, length_app, IH. unfold pollCalls.
  destruct (hub c) eqn:E.
  - rewrite filter_cons_True by done. simpl. lia.
  - rewrite filter_cons_False by (by rewrite E). simpl. lia.
Qed.

(** X4. A round that returns has issued, cluster after cluster in the
    order of the slice, the node listing, the namespace listing and, for
    a cluster that is a hub, the DRPlacementControl listing: two API
    calls for each cluster and one more for each hub, each of them
    once. *)
Theorem round_calls_per_cluster σ s a :
  heap σ !! base s = Some a →
  len s ≤ length a →
  Forall (connected fetchClusterClient) (take (len s) a) →
  ∃ σ',
    updateClustersData_run fetchClusterClient (AddrOf s) σ
    = (Done (ClustersPtrMsg (AddrOf s)), σ') ∧
    calls σ'
    = calls σ ++ (take (len s) a ≫= λ c,
                    [NodeList; NamespaceList] ++
                    (if hub c then [DRPlacementControlList] else [])) ∧
    length (calls σ')
    = length (calls σ) + 2 * len s
      + length (filter (λ c, hub c = true) (take (len s) a)).
Proof.
  intros Ha Hlen Hconn. eexists.
  split; [by apply updateClustersData_run_connected|].
  split; [done|]. simpl.
  rewrite length_app, pollCalls_length, length_take. lia.
Qed.

(** X5. After a round that returns, no cluster of the slice is left with
    the initial health "Unknown": each is "Healthy" or "Error", and
    "Healthy" exactly when the node listing of its own client
    succeeded. *)
Theorem round_sets_every_health σ s a :
  heap σ !! base s = Some a →
  len s ≤ length a →
  Forall (connected fetchClusterClient) (take (len s) a) →
  ∃ σ',
    updateClustersData_run fetchClusterClient (AddrOf s) σ
    = (Done (ClustersPtrMsg (AddrOf s)), σ') ∧
    ∀ i c, i < len s → a !! i = Some c →
      ∃ k c',
        fetchClusterClient (context c) = Some k ∧
        cell σ' (elem s i) = Some c' ∧
        (status c' = "Healthy" ∨ status c' = "Error") ∧
        (status c' = "Healthy" ↔ ∃ nodes, answer k NodeList = Ok nodes).
Proof.
  intros Ha Hlen Hconn. eexists.
  split; [by apply updateClustersData_run_connected|].
  intros i c Hi Hc.
  assert (connected fetchClusterClient c) as [k Hk].
  { eapply Forall_lookup_1; [exact Hconn|]. by rewrite lookup_take_lt. }
  exists k, (polled k c). split; [done|].
  split; [by apply round_cell|]. simpl. unfold statusOf.
  destruct (answer k NodeList) as [nodes|]; split; eauto.
  - split; [intros _; by exists nodes|done].
  - split; [done|]. by intros [nodes ?].
Qed.

End round_more.

(** ** Rounds as goroutines: in turn, and overlapping *)

Lemma runStmts_app stmts1 stmts2 :
  ∀ k σ, runStmts (stmts1 ++ stmts2) k σ
         = bind (runStmts stmts1 k) (runStmts stmts2) σ.
Proof.
  induction stmts1 as [|st stmts1 IH]; intros k σ; [done|].
  cbn [app runStmts]. rewrite bind_assoc. apply bind_ext. intros; apply IH.
Qed.

Lemma runStmts_app_bind {B} stmts1 stmts2
    (f : option Client → M clusterInfo B) k σ :
  bind (runStmts (stmts1 ++ stmts2) k) f σ
  = bind (runStmts stmts1 k) (λ k', bind (runStmts stmts2 k') f) σ.
Proof.
  rewrite <- bind_assoc. unfold bind at 1 3. by rewrite runStmts_app.
Qed.

(** The statements of [updateClusterData], run one after another, are
    [updateClusterData]. *)
Lemma runStmts_updateClusterData fetch c k0 {B} (m : M clusterInfo B) σ :
  bind (runStmts (updateClusterData_stmts fetch c) k0) (λ _, m) σ
  = bind (updateClusterData fetch c) (λ _, m) σ.
Proof.
  unfold updateClusterData_stmts, updateClusterData. cbn [runStmts].
  bind_peel. bind_norm.
  destruct (fetch (context a)) as [k|]; repeat bind_peel.
Qed.

Lemma runStmts_forRange fetch l idxs :
  ∀ k σ,
    bind (runStmts
            (flat_map
               (λ i, updateClusterData_stmts fetch {| arr := l; idx := i |})
               idxs) k)
      (λ _, ret ()) σ
    = forRange (λ i, updateClusterData fetch {| arr := l; idx := i |}) idxs σ.
Proof.
  induction idxs as [|i idxs IH]; intros k σ; [done|].
  cbn [flat_map forRange]. rewrite runStmts_app_bind.
  etrans; [apply bind_ext; intros k' σ'; apply IH|].
  apply runStmts_updateClusterData.
Qed.

(** A goroutine left alone with the statements of a round does what the
    closure of [updateClustersData] does. *)
Lemma runStmts_updateClustersData fetch p k σ :
  bind (runStmts (updateClustersData_stmts fetch p) k)
    (λ _, ret (ClustersPtrMsg p)) σ
  = updateClustersData_run fetch p σ.
Proof.
  unfold updateClustersData_run, updateClustersData_stmts.
  etrans; [|apply bind_cong_l, (runStmts_forRange fetch _ _ k)].
  rewrite bind_assoc. by apply bind_ext.
Qed.

Lemma runStmts_round fetch p k σ :
  (runStmts (updateClustersData_stmts fetch p) k σ).2
  = (updateClustersData_run fetch p σ).2 ∧
  ((∃ k', (runStmts (updateClustersData_stmts fetch p) k σ).1 = Done k')
   ↔ (updateClustersData_run fetch p σ).1 = Done (ClustersPtrMsg p)).
Proof.
  rewrite <- (runStmts_updateClustersData fetch p k). unfold bind, ret.
  destruct (runStmts _ k σ) as [[k'|] σ1]; simpl.
  - split; [done|]. split; [done|]. by exists k'.
  - split; [done|]. split; [by intros [? ?]|done].
Qed.

(** While the scheduler picks one goroutine only, that goroutine runs
    its statements one after another. *)
Lemma interleave_first stmts :
  ∀ k rest sched g2 σ,
    interleave (replicate (length stmts) true ++ sched)
      {| kclient := k; todo := stmts ++ rest |} g2 σ
    = bind (runStmts stmts k)
        (λ k', interleave sched {| kclient := k'; todo := rest |} g2) σ.
Proof.
  induction stmts as [|st stmts IH]; intros k rest sched g2 σ; [done|].
  cbn [length replicate app interleave runStmts]. unfold step.
  cbn [todo kclient]. rewrite !bind_assoc. apply bind_ext. intros k' σ'.
  rewrite bind_ret_l. apply IH.
Qed.

Lemma interleave_second stmts :
  ∀ k rest sched g1 σ,
    interleave (replicate (length stmts) false ++ sched)
      g1 {| kclient := k; todo := stmts ++ rest |} σ
    = bind (runStmts stmts k)
        (λ k', interleave sched g1 {| kclient := k'; todo := rest |}) σ.
Proof.
  induction stmts as [|st stmts IH]; intros k rest sched g1 σ; [done|].
  cbn [length replicate app interleave runStmts]. unfold step.
  cbn [todo kclient]. rewrite !bind_assoc. apply bind_ext. intros k' σ'.
  rewrite bind_ret_l. apply IH.
Qed.

(** Two rounds in turn: the second goroutine starts when the first has
    run all its statements. *)
Lemma interleave_in_turn stmts1 stmts2 σ :
  interleave
    (replicate (length stmts1) true ++ replicate (length stmts2) false)
    (spawn stmts1) (spawn stmts2) σ
  = bind (runStmts stmts1 None)
      (λ k1, bind (runStmts stmts2 None)
               (λ k2, ret ({| kclient := k1; todo := [] |},
                           {| kclient := k2; todo := [] |}))) σ.
Proof.
  unfold spawn. rewrite <- (app_nil_r stmts1) at 2.
  rewrite interleave_first. apply bind_ext. intros k1 σ1.
  rewrite <- (app_nil_r (replicate (length stmts2) false)).
  rewrite <- (app_nil_r stmts2) at 2. by rewrite interleave_second.
Qed.

Lemma polled_polled k1 k2 c : polled k2 (polled k1 c) = polled k2 c.
Proof. done. Qed.

Lemma pollOne_context fetch c : context (pollOne fetch c) = context c.
Proof. unfold pollOne. by destruct (fetch (context c)). Qed.

(** The array after a round that returns, and what a second round needs
    to know of it. *)
Lemma round_array fetch (s : slice) a :
  len s ≤ length a →
  let a1 := (pollOne fetch <$> take (len s) a) ++ drop (len s) a in
  length a1 = length a ∧
  take (len s) a1 = pollOne fetch <$> take (len s) a ∧
  ∀ i c, i < len s → a !! i = Some c → a1 !! i = Some (pollOne fetch c).
Proof.
  intros Hlen a1.
  assert (length (pollOne fetch <$> take (len s) a) = len s) as Hl
    by (rewrite length_fmap, length_take; lia).
  split; [|split].
  - unfold a1. rewrite length_app, Hl, length_drop. lia.
  - unfold a1. by rewrite take_app_length'.
  - intros i c Hi Hc. unfold a1. rewrite lookup_app_l by lia.
    by rewrite list_lookup_fmap, lookup_take_lt, Hc.
Qed.

(** C1 as it is written does not hold. Two rounds that overlap, one
    started by [Init] or a tick and the next by the tick that follows,
    write the same array one field at a time. Under
    [overlappingSchedule] the first cluster is left with the health that
    the second round found and with the namespaces and the DRPCs that the
    first round found. *)
Lemma statuses_come_from_one_attempt_fails : ¬ statuses_come_from_one_attempt.
Proof.
  intros H.
  destruct (H sampleFetch degradedFetch startModel
              (startState "hub" "dr1" "dr2")
              [newClusterInfo "Hub" "hub" true false;
               newClusterInfo "DR1" "dr1" false true;
               newClusterInfo "DR2" "dr2" false true]
              overlappingSchedule
              {| kclient := Some healthyClient; todo := [] |}
              {| kclient := Some degradedClient; todo := [] |}
              (interleave overlappingSchedule
                 (spawn (updateClustersData_stmts sampleFetch
                           (AddrOf (clusters startModel))))
                 (spawn (updateClustersData_stmts degradedFetch
                           (AddrOf (clusters startModel))))
                 (startState "hub" "dr1" "dr2")).2
              ltac:(vm_compute; reflexivity) ltac:(simpl; lia)
              ltac:(vm_compute; reflexivity) eq_refl eq_refl
              0 (newClusterInfo "Hub" "hub" true false)
              ltac:(simpl; lia) eq_refl)
    as (k & [Hk|Hk] & Hcell); injection Hk as <-;
    vm_compute in Hcell; discriminate Hcell.
Qed.

(** What the overlapping rounds leave, field by field. *)
Lemma overlapping_rounds_mix :
  let p := AddrOf (clusters startModel) in
  let σ' := (interleave overlappingSchedule
               (spawn (updateClustersData_stmts sampleFetch p))
               (spawn (updateClustersData_stmts degradedFetch p))
               (startState "hub" "dr1" "dr2")).2 in
  cell σ' (elem (clusters startModel) 0)
  = Some {| name := "Hub"; status := statusOf degradedClient;
            context := "hub";
            namespaces := namespacesOf healthyClient;
            DRPCs := DRPCsOf true healthyClient;
            hub := true; managedcluster := false |} ∧
  statusOf degradedClient ≠ statusOf healthyClient ∧
  namespacesOf healthyClient ≠ namespacesOf degradedClient.
Proof. cbv zeta. split; [vm_compute; reflexivity|]. split; discriminate. Qed.

(** C1 (as amended). Every tick starts a round on the slice of the
    model. When two rounds run in turn, the second one starting after the
    first has run all its statements, they return their messages exactly
    when every client could be built in both; the messages leave the
    model as it is, and every target seen through the model then has its
    health, namespaces and DRPCs all computed from the answers of one
    round, the second: nothing of what the array held before, nor of what
    the first round wrote, remains in the three fields. *)
Theorem rounds_in_turn_leave_one_attempt fetch1 fetch2 m σ a :
  heap σ !! base (clusters m) = Some a →
  len (clusters m) ≤ length a →
  let p := AddrOf (clusters m) in
  let round1 := updateClustersData_stmts fetch1 p in
  let round2 := updateClustersData_stmts fetch2 p in
  let run :=
    interleave
      (replicate (length round1) true ++ replicate (length round2) false)
      (spawn round1) (spawn round2) σ in
  (∀ t, Update m (TimeMsg t) = (m, Some (Batch [PollCmd p; tickCmd]))) ∧
  ((∃ gs, run.1 = Done gs)
   ↔ Forall (connected fetch1) (take (len (clusters m)) a) ∧
     Forall (connected fetch2) (take (len (clusters m)) a)) ∧
  ∀ g1 g2, run.1 = Done (g1, g2) →
    todo g1 = [] ∧ todo g2 = [] ∧
    runEvents m [ClustersPtrMsg p; ClustersPtrMsg p] = (m, [None; None]) ∧
    ∀ i c, i < len (clusters m) → a !! i = Some c →
      ∃ k, fetch2 (context c) = Some k ∧
           cell run.2 (elem (clusters m) i) = Some (polled k c).
Proof.
  intros Ha Hlen p round1 round2 run. split; [done|].
  set (n := len (clusters m)) in *.
  set (a1 := (pollOne fetch1 <$> take n a) ++ drop n a).
  destruct (round_array fetch1 (clusters m) a Hlen) as (Hlen1 & Htake1 & Ha1).
  fold n in Hlen1, Htake1, Ha1. fold a1 in Hlen1, Htake1, Ha1.
  assert (len (clusters m) ≤ length a1) as Hlen1'
    by (rewrite Hlen1; exact Hlen).
  (* what the two rounds do when every client can be built *)
  assert (Forall (connected fetch1) (take n a) →
          Forall (connected fetch2) (take n a) →
          ∃ k1 k2 σ1,
            heap σ1 !! base (clusters m) = Some a1 ∧
            run = (Done ({| kclient := k1; todo := [] |},
                         {| kclient := k2; todo := [] |}),
                   {| heap := <[base (clusters m) :=
                                  (pollOne fetch2 <$> take n a1)
                                  ++ drop n a1]> (heap σ1);
                      calls := calls σ1
                               ++ (take n a1 ≫= λ c, pollCalls (hub c)) |}))
    as Hturn.
  { intros Hconn1 Hconn2.
    pose proof (updateClustersData_run_connected fetch1 σ (clusters m) a
                  Ha Hlen Hconn1) as Hrun1.
    fold p n in Hrun1. fold a1 in Hrun1.
    set (σ1 := {| heap := _; calls := _ |}) in Hrun1.
    assert (heap σ1 !! base (clusters m) = Some a1) as Hheap1
      by (simpl; by rewrite lookup_insert_eq).
    assert (Forall (connected fetch2) (take n a1)) as Hconn2'.
    { rewrite Htake1. apply Forall_fmap. eapply Forall_impl; [exact Hconn2|].
      intros c Hc. unfold connected in *. simpl.
      by rewrite pollOne_context. }
    pose proof (updateClustersData_run_connected fetch2 σ1 (clusters m) a1
                  Hheap1 Hlen1' Hconn2') as Hrun2.
    fold p n in Hrun2. set (σ2 := {| heap := _; calls := _ |}) in Hrun2.
    destruct (runStmts_round fetch1 p None σ) as [Hst1 [_ Hdone1]].
    destruct Hdone1 as [k1 Hk1]; [by rewrite Hrun1|].
    destruct (runStmts_round fetch2 p None σ1) as [Hst2 [_ Hdone2]].
    destruct Hdone2 as [k2 Hk2]; [by rewrite Hrun2|].
    rewrite Hrun1 in Hst1. rewrite Hrun2 in Hst2. simpl in Hst1, Hst2.
    exists k1, k2, σ1. split; [done|].
    unfold run. rewrite interleave_in_turn.
    rewrite (bind_Done _ _ σ k1 σ1)
      by (rewrite (surjective_pairing (runStmts _ _ σ)); by f_equal).
    by rewrite (bind_Done _ _ σ1 k2 σ2)
      by (rewrite (surjective_pairing (runStmts _ _ σ1)); by f_equal). }
  (* the rounds return only if every client can be built *)
  assert ((∃ gs, run.1 = Done gs) →
          Forall (connected fetch1) (take n a) ∧
          Forall (connected fetch2) (take n a)) as Hconn.
  { intros [gs Hgs]. unfold run in Hgs. rewrite interleave_in_turn in Hgs.
    destruct (runStmts_round fetch1 p None σ) as [Hst1 [Hdone1 _]].
    fold round1 in Hst1, Hdone1. unfold bind in Hgs.
    destruct (runStmts round1 None σ) as [[k1|] σ1] eqn:E1; [|done].
    specialize (Hdone1 (ex_intro _ k1 eq_refl)). simpl in Hst1.
    assert (updateClustersData_run fetch1 p σ
            = (Done (ClustersPtrMsg p), σ1)) as Hrun1
      by (rewrite (surjective_pairing (updateClustersData_run _ _ σ));
          by f_equal).
    pose proof (round_returns_connected fetch1 σ (clusters m) a _ _
                  Ha Hlen Hrun1) as Hconn1.
    fold n in Hconn1. split; [done|].
    pose proof (updateClustersData_run_connected fetch1 σ (clusters m) a
                  Ha Hlen Hconn1) as Hrun1'.
    fold p in Hrun1'. rewrite Hrun1 in Hrun1'. injection Hrun1' as Hσ1.
    assert (heap σ1 !! base (clusters m) = Some a1) as Hheap1
      by (rewrite Hσ1; simpl; by rewrite lookup_insert_eq).
    destruct (runStmts_round fetch2 p None σ1) as [Hst2 [Hdone2 _]].
    fold round2 in Hst2, Hdone2.
    destruct (runStmts round2 None σ1) as [[k2|] σ2] eqn:E2; [|done].
    specialize (Hdone2 (ex_intro _ k2 eq_refl)). simpl in Hst2.
    assert (updateClustersData_run fetch2 p σ1
            = (Done (ClustersPtrMsg p), σ2)) as Hrun2
      by (rewrite (surjective_pairing (updateClustersData_run _ _ σ1));
          by f_equal).
    pose proof (round_returns_connected fetch2 σ1 (clusters m) a1 _ _
                  Hheap1 Hlen1' Hrun2) as Hconn2.
    fold n in Hconn2. rewrite Htake1 in Hconn2.
    rewrite Forall_fmap in Hconn2. eapply Forall_impl; [exact Hconn2|].
    intros c Hc. unfold connected in *. simpl in Hc.
    by rewrite pollOne_context in Hc. }
  split.
  { split; [exact Hconn|]. intros [Hconn1 Hconn2].
    destruct (Hturn Hconn1 Hconn2) as (k1 & k2 & σ1 & _ & ->). by eexists. }
  intros g1 g2 Hdone.
  destruct (Hconn (ex_intro _ _ Hdone)) as [Hconn1 Hconn2].
  destruct (Hturn Hconn1 Hconn2) as (k1 & k2 & σ1 & Hheap1 & Hrun).
  rewrite Hrun in Hdone |- *. injection Hdone as <- <-.
  split; [done|]. split; [done|]. split; [done|].
  intros i c Hi Hc.
  assert (connected fetch1 c) as [k1' Hk1].
  { eapply Forall_lookup_1; [exact Hconn1|]. by rewrite lookup_take_lt. }
  assert (connected fetch2 c) as [k Hk].
  { eapply Forall_lookup_1; [exact Hconn2|]. by rewrite lookup_take_lt. }
  exists k. split; [done|].
  rewrite <- (polled_polled k1' k c).
  apply (round_cell fetch2 σ1 (clusters m) a1); [done|done| |done].
  rewrite (Ha1 i c Hi Hc). unfold pollOne. by rewrite Hk1.
Qed.

Lemma rounds_in_turn_leave_one_attempt_witness :
  let p := AddrOf (clusters startModel) in
  let a := [newClusterInfo "Hub" "hub" true false;
            newClusterInfo "DR1" "dr1" false true;
            newClusterInfo "DR2" "dr2" false true] in
  heap (startState "hub" "dr1" "dr2") !! base (clusters startModel) = Some a ∧
  len (clusters startModel) ≤ length a ∧
  ∃ g1 g2 σ',
    interleave (replicate 18 true ++ replicate 18 false)
      (spawn (updateClustersData_stmts sampleFetch p))
      (spawn (updateClustersData_stmts degradedFetch p))
      (startState "hub" "dr1" "dr2")
    = (Done (g1, g2), σ') ∧
    cell σ' (elem (clusters startModel) 0)
    = Some {| name := "Hub"; status := "Error"; context := "hub";
              namespaces := ["ramen-system"]; DRPCs := ["drpc-a"];
              hub := true; managedcluster := false |}.
Proof.
  cbv zeta.
  assert (heap (startState "hub" "dr1" "dr2") !! base (clusters startModel)
          = Some [newClusterInfo "Hub" "hub" true false;
                  newClusterInfo "DR1" "dr1" false true;
                  newClusterInfo "DR2" "dr2" false true]) as Hheap
    by (vm_compute; reflexivity).
  assert (len (clusters startModel)
          ≤ length [newClusterInfo "Hub" "hub" true false;
                    newClusterInfo "DR1" "dr1" false true;
                    newClusterInfo "DR2" "dr2" false true]) as Hlen
    by (simpl; lia).
  split; [exact Hheap|]. split; [exact Hlen|].
  destruct (rounds_in_turn_leave_one_attempt sampleFetch degradedFetch
              startModel (startState "hub" "dr1" "dr2") _ Hheap Hlen)
    as (_ & [_ Hreturns] & Hcells).
  destruct Hreturns as [[g1 g2] Hdone].
  { split; repeat (constructor; [by eexists|]); constructor. }
  destruct (Hcells g1 g2 Hdone) as (_ & _ & _ & Hcell).
  destruct (Hcell 0 (newClusterInfo "Hub" "hub" true false))
    as (k & Hk & Hhub); [simpl; lia | reflexivity |].
  injection Hk as <-.
  eexists g1, g2, _. split; [|exact Hhub].
  etrans; [apply surjective_pairing|]. f_equal. exact Hdone.
Defined.

(** ** The renderer: what it reads, when it panics *)

Lemma reads_bind {T A B} (m : M T A) (k : A → M T B) :
  reads m → (∀ a, reads (k a)) → reads (bind m k).
Proof.
  intros Hm Hk σ. unfold bind. specialize (Hm σ).
  destruct (m σ) as [[a|] σ1]; simpl in *; subst; [apply Hk|done].
Qed.

Lemma reads_ret {T A} (a : A) : reads (T := T) (ret a).
Proof. done. Qed.

Lemma reads_load {T} p : reads (T := T) (load p).
Proof. intros σ. unfold load. by destruct (cell σ p). Qed.

Lemma reads_index {T} s i : reads (T := T) (index s i).
Proof. intros σ. unfold index. by case_decide. Qed.

Lemma runEvents_without_batch evs :
  ∀ m, Forall (λ ev, is_batch ev = false) evs →
       clusters (runEvents m evs).1 = clusters m.
Proof.
  induction evs as [|ev evs IH]; intros m Hevs; [done|].
  apply Forall_cons in Hevs as [Hev Hevs].
  rewrite runEvents_cons, IH by done.
  destruct ev as [s|p|w h|key|t|]; try done. cbn [Update].
  destruct (key_in key ["ctrl+c"; "q"]); [done|].
  destruct (key_in key ["up"; "k"]); [by destruct (0 <? cursor m)%Z|].
  destruct (key_in key ["down"; "j"]); [|done].
  by destruct (cursor m <? Z.of_nat (len (clusters m)) - 1)%Z.
Qed.

Lemma afterRounds_same_shape fetches p :
  ∀ σ, same_shape (base (deref p)) σ (afterRounds fetches p σ).
Proof.
  induction fetches as [|fetch fetches IH]; intros σ.
  - apply same_shape_refl.
  - cbn [afterRounds foldl]. eapply same_shape_trans; [|apply IH].
    apply keeps_updateClustersData_run.
Qed.

Section view_more.
Variable Position : Type.
Variables Top Left : Position.
Variable RenderBox : Z → Z → list string → option string.
Variables JoinVertical JoinHorizontal : Position → list string → string.

Local Abbreviation render :=
  (View Position Top Left RenderBox JoinVertical JoinHorizontal).

Lemma View_frame m σ c0 c1 c2 :
  3 ≤ len (clusters m) →
  cell σ (elem (clusters m) 0) = Some c0 →
  cell σ (elem (clusters m) 1) = Some c1 →
  cell σ (elem (clusters m) 2) = Some c2 →
  render m σ
  = (match
       RenderBox (width m) (height m ÷ 3)
         [name c0 +:+ nl +:+ nl;
          "Status: " +:+ status c0 +:+ nl;
          "Namespaces: " +:+ Join (namespaces c0) "," +:+ nl;
          "DRPCs: " +:+ Join (DRPCs c0) "," +:+ nl],
       RenderBox (width m ÷ 2) (height m ÷ 2)
         [name c1 +:+ nl +:+ nl;
          "Status: " +:+ status c1 +:+ nl;
          "Namespaces: " +:+ fmt_strings (namespaces c1) +:+ nl],
       RenderBox (width m ÷ 2) (height m ÷ 2)
         [name c2 +:+ nl +:+ nl;
          "Status: " +:+ status c2 +:+ nl;
          "Namespaces: " +:+ fmt_strings (namespaces c2) +:+ nl]
     with
     | Some hubStyle, Some dr1Style, Some dr2Style =>
         Done (JoinVertical Top
                 [hubStyle; JoinHorizontal Left [dr1Style; dr2Style]]
               +:+ nl +:+ nl +:+ "Press q to quit." +:+ nl)
     | _, _, _ => Panic
     end, σ).
Proof.
  intros Hlen H0 H1 H2.
  unfold View, index, getHubStyle, getManagedClusterStyle.
  rewrite !decide_True by lia.
  unfold bind, ret, load, panic. rewrite H0. simpl.
  destruct (RenderBox (width m) _ _); [|done].
  rewrite H1. simpl. destruct (RenderBox (width m ÷ 2) _ _); [|done].
  rewrite H2. simpl. by destruct (RenderBox (width m ÷ 2) _ _).
Qed.

Lemma reads_panic {T A} : reads (T := T) (A := A) panic.
Proof. done. Qed.

Lemma reads_View m : reads (render m).
Proof.
  unfold View, getHubStyle, getManagedClusterStyle.
  repeat first
    [ apply reads_bind; [|intros ?]
    | apply reads_index
    | apply reads_load
    | apply reads_ret
    | apply reads_panic
    | match goal with
      | |- reads (match ?o with _ => _ end) => destruct o
      end ].
Qed.

(** Rendering is read-only: whether [View] returns a frame or
    panics, it leaves every array of the heap as it was and issues no
    API call. *)
Lemma View_changes_nothing m σ :
  (View Position Top Left RenderBox JoinVertical JoinHorizontal m σ).2 = σ.
Proof. apply reads_View. Qed.

(** X6. [View] indexes the first three clusters of the model without
    looking at how many there are: on a model that holds fewer than
    three, it panics, and draws nothing. *)
Theorem View_panics_below_three_clusters m σ :
  len (clusters m) < 3 →
  View Position Top Left RenderBox JoinVertical JoinHorizontal m σ
  = (Panic, σ).
Proof.
  intros Hlen. rewrite (surjective_pairing (render m σ)).
  f_equal; [|apply reads_View].
  unfold View, index, getHubStyle, getManagedClusterStyle, bind, load, ret,
    panic.
  repeat case_decide; try lia;
    repeat match goal with
      | |- context [cell ?s ?p] => destruct (cell s p)
      | |- context [RenderBox ?w ?h ?strs] => destruct (RenderBox w h strs)
      end; done.
Qed.

(** X7. Started from [initialModel], the renderer never panics on its
    own account as long as no message of type [[]clusterInfo] is handled:
    after any keys, resizes, ticks and poll results, and after any number
    of poll rounds on the slice of the model, be they completed or cut
    short by a panic, the three clusters that [View] indexes are there,
    and [View] returns a frame whenever the layout library renders boxes
    of the size that the model then has. *)
Theorem View_renders_after_initialModel
    hubFlag dr1Flag dr2Flag σ0 evs fetches :
  Forall (λ ev, is_batch ev = false) evs →
  ∃ m σ,
    initialModel hubFlag dr1Flag dr2Flag σ0 = (Done m, σ) ∧
    let m' := (runEvents m evs).1 in
    let σ' := afterRounds fetches (AddrOf (clusters m)) σ in
    (∀ strs, is_Some (RenderBox (width m') (height m' ÷ 3) strs)) →
    (∀ strs, is_Some (RenderBox (width m' ÷ 2) (height m' ÷ 2) strs)) →
    ∃ frame,
      View Position Top Left RenderBox JoinVertical JoinHorizontal m' σ'
      = (Done frame, σ').
Proof.
  intros Hevs.
  destruct (initialModel_in_range hubFlag dr1Flag dr2Flag σ0)
    as (m & σ & Hinit & [Hlen _] & Hheap).
  exists m, σ. split; [done|]. cbv zeta. intros Hhub Hdr.
  destruct (afterRounds_same_shape fetches (AddrOf (clusters m)) σ
              (base (clusters m))) as [_ Hsh].
  rewrite Hheap in Hsh. inversion Hsh as [x a' Hall E1 E2|]. subst x.
  apply Forall2_length in Hall. simpl in Hall.
  destruct a' as [|c0 [|c1 [|c2 a']]]; try discriminate Hall.
  rewrite (View_frame _ _ c0 c1 c2).
  - match goal with
    | |- context [RenderBox ?w ?h ?strs] =>
        destruct (Hhub strs) as [hubStyle ->]
    end.
    match goal with
    | |- context [RenderBox (?w ÷ 2) ?h ?strs] =>
        destruct (Hdr strs) as [dr1Style ->]
    end.
    match goal with
    | |- context [RenderBox (?w ÷ 2) ?h ?strs] =>
        destruct (Hdr strs) as [dr2Style ->]
    end.
    by eexists.
  - rewrite runEvents_without_batch by done. lia.
  - unfold cell. rewrite runEvents_without_batch by done. simpl.
    by rewrite <- E2.
  - unfold cell. rewrite runEvents_without_batch by done. simpl.
    by rewrite <- E2.
  - unfold cell. rewrite runEvents_without_batch by done. simpl.
    by rewrite <- E2.
Qed.

(** X8. The frame shows of each of the first three clusters its name,
    health and namespaces, and of the first one its DRPCs, and nothing
    else: two heaps that agree on these give the same frame, whatever the
    kubeconfig paths, the role flags and the DRPCs of the second and
    third cluster are. *)
Theorem View_shows_only_the_status_fields m σ1 σ2 c0 c1 c2 d0 d1 d2 :
  3 ≤ len (clusters m) →
  cell σ1 (elem (clusters m) 0) = Some c0 →
  cell σ1 (elem (clusters m) 1) = Some c1 →
  cell σ1 (elem (clusters m) 2) = Some c2 →
  cell σ2 (elem (clusters m) 0) = Some d0 →
  cell σ2 (elem (clusters m) 1) = Some d1 →
  cell σ2 (elem (clusters m) 2) = Some d2 →
  shown_alike true c0 d0 →
  shown_alike false c1 d1 →
  shown_alike false c2 d2 →
  (render m σ1).1 = (render m σ2).1.
Proof.
  intros Hlen Hc0 Hc1 Hc2 Hd0 Hd1 Hd2
    (Hn0 & Hs0 & Hns0 & Hd) (Hn1 & Hs1 & Hns1 & _) (Hn2 & Hs2 & Hns2 & _).
  rewrite (View_frame m σ1 c0 c1 c2), (View_frame m σ2 d0 d1 d2) by done.
  simpl. by rewrite Hn0, Hs0, Hns0, Hd, Hn1, Hs1, Hns1, Hn2, Hs2, Hns2.
Qed.

End view_more.

(** ** The event handler: moves, inert events, ticks *)

Lemma Update_up m :
  (Update m (KeyMsg "up")).1
  = if (0 <? cursor m)%Z then set_cursor (cursor m - 1) m else m.
Proof. done. Qed.

Lemma Update_down m :
  (Update m (KeyMsg "down")).1
  = if (cursor m <? Z.of_nat (len (clusters m)) - 1)%Z
    then set_cursor (cursor m + 1) m else m.
Proof. done. Qed.

(** X9. Within the list, a move up and a move down undo each other: from
    any cluster but the first, up then down comes back to the same model,
    and from any cluster but the last, down then up does; on the first
    cluster a move up, and on the last a move down, changes nothing. *)
Theorem moves_undo_each_other n m :
  in_range n m →
  ((0 < cursor m)%Z →
   (Update (Update m (KeyMsg "up")).1 (KeyMsg "down")).1 = m) ∧
  ((cursor m < Z.of_nat n - 1)%Z →
   (Update (Update m (KeyMsg "down")).1 (KeyMsg "up")).1 = m) ∧
  (cursor m = 0%Z → (Update m (KeyMsg "up")).1 = m) ∧
  (cursor m = (Z.of_nat n - 1)%Z → (Update m (KeyMsg "down")).1 = m).
Proof.
  intros [Hlen Hcur].
  destruct m as [cl cu w h ti]. simpl in Hlen, Hcur. subst n.
  repeat split; intros H; simpl in H.
  - rewrite (Update_up (Build_model cl cu w h ti)). cbn [cursor].
    destruct (Z.ltb_spec 0 cu); [|lia]. rewrite Update_down.
    cbn [set_cursor cursor clusters].
    destruct (Z.ltb_spec (cu - 1) (Z.of_nat (len cl) - 1)); [|lia].
    unfold set_cursor. simpl. f_equal. lia.
  - rewrite (Update_down (Build_model cl cu w h ti)). cbn [cursor clusters].
    destruct (Z.ltb_spec cu (Z.of_nat (len cl) - 1)); [|lia].
    rewrite Update_up. cbn [set_cursor cursor clusters].
    destruct (Z.ltb_spec 0 (cu + 1)); [|lia].
    unfold set_cursor. simpl. f_equal. lia.
  - rewrite Update_up. simpl. by destruct (Z.ltb_spec 0 cu); [lia|].
  - rewrite Update_down. simpl.
    by destruct (Z.ltb_spec cu (Z.of_nat (len cl) - 1)); [lia|].
Qed.

Lemma moves_undo_each_other_witness :
  in_range 3 (set_cursor 1 startModel) ∧
  (Update (Update (set_cursor 1 startModel) (KeyMsg "up")).1
     (KeyMsg "down")).1 = set_cursor 1 startModel ∧
  (Update (Update (set_cursor 1 startModel) (KeyMsg "down")).1
     (KeyMsg "up")).1 = set_cursor 1 startModel.
Proof.
  assert (in_range 3 (set_cursor 1 startModel)) as Hm
    by (split; simpl; [reflexivity | lia]).
  split; [exact Hm|].
  destruct (moves_undo_each_other 3 (set_cursor 1 startModel) Hm)
    as (Hud & Hdu & _).
  split; [apply Hud | apply Hdu]; simpl; lia.
Defined.

Lemma Update_inert m ev : inert ev = true → (Update m ev).1 = m.
Proof.
  destruct ev as [s|p|w h|key|t|]; try done. cbn [inert Update].
  intros Hkey. apply negb_true_iff in Hkey.
  destruct (key_in key ["ctrl+c"; "q"]); [done|].
  destruct (key_in key ["up"; "k"]) eqn:Eup.
  { cbn in Hkey, Eup. apply orb_false_iff in Hkey as [E1 Hkey].
    apply orb_false_iff in Hkey as [E2 _]. by rewrite E1, E2 in Eup. }
  destruct (key_in key ["down"; "j"]) eqn:Edown; [|done].
  cbn in Hkey, Edown. apply orb_false_iff in Hkey as [_ Hkey].
  apply orb_false_iff in Hkey as [_ Hkey].
  apply orb_false_iff in Hkey as [E3 Hkey].
  apply orb_false_iff in Hkey as [E4 _]. by rewrite E3, E4 in Edown.
Qed.

(** X10. Ticks, the messages that poll rounds deliver, messages of any
    other type, the quit keys and the keys that the handler does not know
    leave the model exactly as it is: the handler changes the model on a
    batch, a resize or a move key only. *)
Theorem inert_events_leave_the_model evs :
  ∀ m, Forall (λ ev, inert ev = true) evs → (runEvents m evs).1 = m.
Proof.
  induction evs as [|ev evs IH]; intros m Hevs; [done|].
  apply Forall_cons in Hevs as [Hev Hevs].
  by rewrite runEvents_cons, (Update_inert m ev Hev), IH.
Qed.

Lemma inert_events_leave_the_model_witness :
  Forall (λ ev, inert ev = true)
    [TimeMsg 0; KeyMsg "x"; ClustersPtrMsg (AddrOf (clusters startModel));
     KeyMsg "q"; OtherMsg; KeyMsg "enter"] ∧
  (runEvents (set_cursor 2 startModel)
     [TimeMsg 0; KeyMsg "x"; ClustersPtrMsg (AddrOf (clusters startModel));
      KeyMsg "q"; OtherMsg; KeyMsg "enter"]).1 = set_cursor 2 startModel.
Proof.
  assert (Forall (λ ev, inert ev = true)
            [TimeMsg 0; KeyMsg "x";
             ClustersPtrMsg (AddrOf (clusters startModel));
             KeyMsg "q"; OtherMsg; KeyMsg "enter"]) as Hevs
    by (repeat constructor).
  split; [exact Hevs|].
  exact (inert_events_leave_the_model _ (set_cursor 2 startModel) Hevs).
Defined.

Lemma runEvents_cons_cmds m ev evs :
  (runEvents m (ev :: evs)).2
  = (Update m ev).2 :: (runEvents (Update m ev).1 evs).2.
Proof.
  simpl. destruct (Update m ev) as [m1 cmd]. simpl.
  by destruct (runEvents m1 evs).
Qed.

Lemma Update_rounds m ev :
  from_option rounds_of [] (Update m ev).2
  = if is_tick ev then [AddrOf (clusters m)] else [].
Proof.
  destruct ev as [s|p|w h|key|t|]; try done. cbn [Update is_tick].
  destruct (key_in key ["ctrl+c"; "q"]); [done|].
  destruct (key_in key ["up"; "k"]); [done|].
  by destruct (key_in key ["down"; "j"]).
Qed.

Lemma Update_timers m ev :
  from_option timers_of [] (Update m ev).2
  = if is_tick ev then [1000000000%Z] else [].
Proof.
  destruct ev as [s|p|w h|key|t|]; try done. cbn [Update is_tick].
  destruct (key_in key ["ctrl+c"; "q"]); [done|].
  destruct (key_in key ["up"; "k"]); [done|].
  by destruct (key_in key ["down"; "j"]).
Qed.

Lemma Update_clusters m ev :
  clusters (Update m ev).1
  = match ev with ClustersMsg s => s | _ => clusters m end.
Proof.
  destruct ev as [s|p|w h|key|t|]; try done. cbn [Update].
  destruct (key_in key ["ctrl+c"; "q"]); [done|].
  destruct (key_in key ["up"; "k"]); [by destruct (0 <? cursor m)%Z|].
  destruct (key_in key ["down"; "j"]); [|done].
  by destruct (cursor m <? Z.of_nat (len (clusters m)) - 1)%Z.
Qed.

Lemma started_cons {A} (f : Cmd → list A) cmd cmds :
  started f (cmd :: cmds) = from_option f [] cmd ++ started f cmds.
Proof. done. Qed.

(** X11. The handler starts exactly one poll round and one timer of one
    second for every tick that it handles, and none otherwise, whether or
    not the rounds started earlier have delivered their result: over any
    sequence of events, the rounds started are as many as the ticks, and
    so are the timers; and every round is given the slice that the model
    had at the start or one that a [[]clusterInfo] message brought, so
    that, no such message being sent, all rounds work on one array. *)
Theorem one_round_per_tick evs :
  ∀ m,
    let cmds := (runEvents m evs).2 in
    let ticks := length (filter (λ ev, is_tick ev = true) evs) in
    length (started rounds_of cmds) = ticks ∧
    started timers_of cmds = replicate ticks 1000000000%Z ∧
    Forall (λ p, p = AddrOf (clusters m) ∨
                 ∃ s, ClustersMsg s ∈ evs ∧ p = AddrOf s)
      (started rounds_of cmds).
Proof.
  induction evs as [|ev evs IH]; intros m; [by repeat split|].
  cbv zeta. rewrite runEvents_cons_cmds, !started_cons.
  rewrite Update_rounds, Update_timers.
  destruct (IH (Update m ev).1) as (Hrounds & Htimers & Hslices).
  cbv zeta in Hrounds, Htimers, Hslices.
  assert (Forall (λ p, p = AddrOf (clusters m) ∨
                       ∃ s, ClustersMsg s ∈ ev :: evs ∧ p = AddrOf s)
            (started rounds_of (runEvents (Update m ev).1 evs).2)) as Hrest.
  { eapply Forall_impl; [exact Hslices|]. intros p [->|(s & Hs & ->)].
    - rewrite Update_clusters. destruct ev as [s| | | | |]; auto.
      right. exists s. split; [left|done].
    - right. exists s. split; [by right|done]. }
  rewrite length_app, Hrounds, Htimers.
  destruct (is_tick ev) eqn:Etick.
  - rewrite filter_cons_True by done. simpl.
    split; [done|]. split; [done|]. constructor; [by left|done].
  - rewrite filter_cons_False by (by rewrite Etick). by simpl.
Qed.

(** ** The namespace filter *)

(** X12. The filter drops no allowed name and adds none, so when the
    listed names are distinct, as the names of namespaces are, so are the
    names that it keeps, and there are at most five of them. *)
Theorem filtered_namespaces_are_few items :
  NoDup (Name <$> items) →
  NoDup (filterRamenNamespaces items) ∧
  length (filterRamenNamespaces items) ≤ 5 ∧
  ∀ n, n ∈ filterRamenNamespaces items → n ∈ ramenNamespaces.
Proof.
  intros Hnd. rewrite filterRamenNamespaces_filter.
  assert (NoDup (filter (.∈ ramenNamespaces) (Name <$> items))) as Hnd'
    by (by apply NoDup_filter).
  assert (∀ n, n ∈ filter (.∈ ramenNamespaces) (Name <$> items)
               → n ∈ ramenNamespaces) as Hin
    by (intros n Hn; by apply list_elem_of_filter in Hn as [? _]).
  split; [done|]. split; [|done].
  change 5 with (length ramenNamespaces).
  apply submseteq_length, NoDup_submseteq; done.
Qed.

Lemma filtered_namespaces_are_few_witness :
  NoDup (Name <$> [object "default"; object "ramen-system";
                   object "kube-system"; object "openshift-dr-ops";
                   object "ramen-ops"]) ∧
  NoDup (filterRamenNamespaces
           [object "default"; object "ramen-system"; object "kube-system";
            object "openshift-dr-ops"; object "ramen-ops"]) ∧
  length (filterRamenNamespaces
            [object "default"; object "ramen-system"; object "kube-system";
             object "openshift-dr-ops"; object "ramen-ops"]) ≤ 5.
Proof.
  assert (NoDup (Name <$> [object "default"; object "ramen-system";
                           object "kube-system"; object "openshift-dr-ops";
                           object "ramen-ops"])) as Hnd
    by (apply (bool_decide_eq_true_1 _); vm_compute; reflexivity).
  split; [exact Hnd|].
  destruct (filtered_namespaces_are_few _ Hnd) as (H1 & H2 & _).
  split; [exact H1 | exact H2].
Defined.

(** X13. The filter of the earlier revision keeps what the filter of the
    later one keeps, but for the namespace "openshift-dr-ops", which only
    the later one allows. *)
Theorem earlier_filter_is_later_filter_without_dr_ops items :
  MainGo.filterRamenNamespaces items
  = filter (λ n, n ≠ "openshift-dr-ops") (filterRamenNamespaces items).
Proof.
  rewrite main_go_filterRamenNamespaces_filter, filterRamenNamespaces_filter.
  rewrite list_filter_filter. apply list_filter_iff. intros n.
  unfold earlierRamenNamespaces, ramenNamespaces.
  rewrite !elem_of_cons, !elem_of_nil. split.
  - intros [->|[->|[->|[->|[]]]]]; split; try discriminate; tauto.
  - intros [Hne [?|[?|[?|[?|[?|[]]]]]]]; tauto.
Qed.

(** ** The poll of the earlier revision *)

Section main_go_more.
Variable fetchClusterClient : string → option Client.

(** X14. In the earlier revision a poll with a client issues the node
    listing and the namespace listing, and nothing else, whatever the
    role of the cluster; it sets the health from the first and the
    namespaces from the second, filtered, and leaves the name, the
    kubeconfig path and the role flags alone. *)
Theorem main_go_poll_of_a_connected_cluster
    (σ : state MainGo.clusterInfo) p c k :
  cell σ p = Some c →
  fetchClusterClient (MainGo.context c) = Some k →
  ∃ σ' c',
    MainGo.updateClusterData fetchClusterClient p σ = (Done (), σ') ∧
    cell σ' p = Some c' ∧
    calls σ' = calls σ ++ [NodeList; NamespaceList] ∧
    MainGo.status c'
    = match answer k NodeList with Ok _ => "Healthy" | Err => "Error" end ∧
    MainGo.namespaces c'
    = match answer k NamespaceList with
      | Ok items => MainGo.filterRamenNamespaces items
      | Err => []
      end ∧
    MainGo.name c' = MainGo.name c ∧
    MainGo.context c' = MainGo.context c ∧
    MainGo.hub c' = MainGo.hub c ∧
    MainGo.managedcluster c' = MainGo.managedcluster c.
Proof.
  intros Hc Hk. eexists _, _.
  split; [by apply main_go_updateClusterData_connected|].
  split; [apply cell_put_eq; eauto|].
  split; [done|]. simpl. unfold statusOf, earlierNamespacesOf.
  repeat split.
  destruct (answer k NamespaceList); [|done].
  by rewrite main_go_filterRamenNamespaces_filter.
Qed.

(** X15. The earlier revision has the fall-through of the later one: with
    a nil clientset the poll writes health "Error" and no namespaces,
    goes on to the node listing and panics there, before any API call. *)
Theorem main_go_poll_panics_on_nil_clientset
    (σ : state MainGo.clusterInfo) p c :
  cell σ p = Some c →
  fetchClusterClient (MainGo.context c) = None →
  ∃ σ' c',
    MainGo.updateClusterData fetchClusterClient p σ = (Panic, σ') ∧
    cell σ' p = Some c' ∧
    MainGo.status c' = "Error" ∧
    MainGo.namespaces c' = [] ∧
    calls σ' = calls σ.
Proof.
  intros Hc Hk. eexists _, _.
  split; [by apply main_go_updateClusterData_nil_client_panics|].
  split; [apply cell_put_eq; eauto|]. done.
Qed.

End main_go_more.

(** ** The further properties on the sample clusters *)

Lemma round_aborts_at_first_nil_client_witness :
  heap (startState "hub" "missing" "dr2") !! base (clusters startModel)
  = Some ([newClusterInfo "Hub" "hub" true false]
          ++ newClusterInfo "DR1" "missing" false true
          :: [newClusterInfo "DR2" "dr2" false true]) ∧
  length [newClusterInfo "Hub" "hub" true false] < len (clusters startModel) ∧
  Forall (connected sampleFetch) [newClusterInfo "Hub" "hub" true false] ∧
  sampleFetch (context (newClusterInfo "DR1" "missing" false true)) = None ∧
  ∃ σ',
    updateClustersData_run sampleFetch (AddrOf (clusters startModel))
      (startState "hub" "missing" "dr2") = (Panic, σ') ∧
    heap σ' !! base (clusters startModel)
    = Some [ {| name := "Hub"; status := "Healthy"; context := "hub";
                namespaces :=
                  ["ramen-system"; "openshift-dr-ops"; "ramen-ops"];
                DRPCs := ["drpc-b"; "drpc-a"];
                hub := true; managedcluster := false |};
             {| name := "DR1"; status := "Error"; context := "missing";
                namespaces := []; DRPCs := [];
                hub := false; managedcluster := true |};
             newClusterInfo "DR2" "dr2" false true ] ∧
    calls σ' = [NodeList; NamespaceList; DRPlacementControlList].
Proof.
  assert (heap (startState "hub" "missing" "dr2")
            !! base (clusters startModel)
          = Some ([newClusterInfo "Hub" "hub" true false]
                  ++ newClusterInfo "DR1" "missing" false true
                  :: [newClusterInfo "DR2" "dr2" false true])) as Hheap
    by (vm_compute; reflexivity).
  assert (length [newClusterInfo "Hub" "hub" true false]
          < len (clusters startModel)) as Hlen by (simpl; lia).
  assert (Forall (connected sampleFetch)
            [newClusterInfo "Hub" "hub" true false]) as Hconn
    by (repeat constructor; by eexists).
  split; [exact Hheap|]. split; [exact Hlen|]. split; [exact Hconn|].
  split; [reflexivity|].
  eexists. split.
  - exact (round_aborts_at_first_nil_client sampleFetch _ _ _ _ _
             Hheap Hlen Hconn eq_refl).
  - split; vm_compute; reflexivity.
Defined.

Lemma second_round_changes_nothing_witness :
  heap (startState "hub" "degraded" "dr2") !! base (clusters startModel)
  = Some sampleClusters ∧
  len (clusters startModel) ≤ length sampleClusters ∧
  Forall (connected sampleFetch)
    (take (len (clusters startModel)) sampleClusters) ∧
  ∃ σ1 σ2,
    updateClustersData_run sampleFetch (AddrOf (clusters startModel))
      (startState "hub" "degraded" "dr2")
    = (Done (ClustersPtrMsg (AddrOf (clusters startModel))), σ1) ∧
    updateClustersData_run sampleFetch (AddrOf (clusters startModel)) σ1
    = (Done (ClustersPtrMsg (AddrOf (clusters startModel))), σ2) ∧
    heap σ2 = heap σ1 ∧
    length (calls σ2) = 14.
Proof.
  assert (heap (startState "hub" "degraded" "dr2")
            !! base (clusters startModel) = Some sampleClusters) as Hheap
    by (vm_compute; reflexivity).
  assert (len (clusters startModel) ≤ length sampleClusters) as Hlen
    by (simpl; lia).
  split; [exact Hheap|]. split; [exact Hlen|].
  split; [exact sampleClusters_connected|].
  destruct (second_round_changes_nothing sampleFetch _ _ _
              Hheap Hlen sampleClusters_connected)
    as (σ1 & σ2 & H1 & H2 & Hh & Hc).
  exists σ1, σ2. split; [exact H1|]. split; [exact H2|].
  split; [exact Hh|]. rewrite Hc. vm_compute. reflexivity.
Defined.

Lemma round_calls_per_cluster_witness :
  heap (startState "hub" "degraded" "dr2") !! base (clusters startModel)
  = Some sampleClusters ∧
  len (clusters startModel) ≤ length sampleClusters ∧
  Forall (connected sampleFetch)
    (take (len (clusters startModel)) sampleClusters) ∧
  ∃ σ',
    updateClustersData_run sampleFetch (AddrOf (clusters startModel))
      (startState "hub" "degraded" "dr2")
    = (Done (ClustersPtrMsg (AddrOf (clusters startModel))), σ') ∧
    calls σ'
    = [NodeList; NamespaceList; DRPlacementControlList;
       NodeList; NamespaceList; NodeList; NamespaceList].
Proof.
  assert (heap (startState "hub" "degraded" "dr2")
            !! base (clusters startModel) = Some sampleClusters) as Hheap
    by (vm_compute; reflexivity).
  assert (len (clusters startModel) ≤ length sampleClusters) as Hlen
    by (simpl; lia).
  split; [exact Hheap|]. split; [exact Hlen|].
  split; [exact sampleClusters_connected|].
  destruct (round_calls_per_cluster sampleFetch _ _ _
              Hheap Hlen sampleClusters_connected)
    as (σ' & Hrun & Hcalls & _).
  exists σ'. split; [exact Hrun|]. rewrite Hcalls. vm_compute. reflexivity.
Defined.

Lemma round_sets_every_health_witness :
  heap (startState "hub" "degraded" "dr2") !! base (clusters startModel)
  = Some sampleClusters ∧
  len (clusters startModel) ≤ length sampleClusters ∧
  Forall (connected sampleFetch)
    (take (len (clusters startModel)) sampleClusters) ∧
  ∃ σ' c',
    updateClustersData_run sampleFetch (AddrOf (clusters startModel))
      (startState "hub" "degraded" "dr2")
    = (Done (ClustersPtrMsg (AddrOf (clusters startModel))), σ') ∧
    cell σ' (elem (clusters startModel) 1) = Some c' ∧
    (status c' = "Healthy" ∨ status c' = "Error") ∧
    (status c' = "Healthy"
     ↔ ∃ nodes, answer degradedClient NodeList = Ok nodes).
Proof.
  assert (heap (startState "hub" "degraded" "dr2")
            !! base (clusters startModel) = Some sampleClusters) as Hheap
    by (vm_compute; reflexivity).
  assert (len (clusters startModel) ≤ length sampleClusters) as Hlen
    by (simpl; lia).
  split; [exact Hheap|]. split; [exact Hlen|].
  split; [exact sampleClusters_connected|].
  destruct (round_sets_every_health sampleFetch _ _ _
              Hheap Hlen sampleClusters_connected)
    as (σ' & Hrun & Hcells).
  destruct (Hcells 1 (newClusterInfo "DR1" "degraded" false true))
    as (k & c' & Hk & Hcell & Hor & Hiff); [simpl; lia | reflexivity |].
  injection Hk as <-.
  exists σ', c'. split; [exact Hrun|]. split; [exact Hcell|].
  split; [exact Hor | exact Hiff].
Defined.

Lemma View_panics_below_three_clusters_witness :
  len (clusters (set_clusters {| base := 1; len := 2 |} startModel)) < 3 ∧
  View unit () () plainBox plainVertical plainHorizontal
    (set_clusters {| base := 1; len := 2 |} startModel)
    (startState "hub" "dr1" "dr2")
  = (Panic, startState "hub" "dr1" "dr2").
Proof.
  assert (len (clusters (set_clusters {| base := 1; len := 2 |} startModel))
          < 3) as Hlen by (simpl; lia).
  split; [exact Hlen|].
  exact (View_panics_below_three_clusters unit () () plainBox plainVertical
           plainHorizontal _ _ Hlen).
Defined.

Lemma View_renders_after_initialModel_witness :
  Forall (λ ev, is_batch ev = false)
    [KeyMsg "down"; TimeMsg 0; WindowSizeMsg 80 24;
     ClustersPtrMsg (AddrOf (clusters startModel)); KeyMsg "q"] ∧
  (∀ strs, is_Some (plainBox 80 (24 ÷ 3) strs)) ∧
  (∀ strs, is_Some (plainBox (80 ÷ 2) (24 ÷ 2) strs)) ∧
  ∃ m σ,
    initialModel "hub" "missing" "dr2" emptyState = (Done m, σ) ∧
    let m' := (runEvents m
                 [KeyMsg "down"; TimeMsg 0; WindowSizeMsg 80 24;
                  ClustersPtrMsg (AddrOf (clusters startModel));
                  KeyMsg "q"]).1 in
    let σ' := afterRounds [sampleFetch; λ _, None; sampleFetch]
                (AddrOf (clusters m)) σ in
    ∃ frame,
      View unit () () plainBox plainVertical plainHorizontal m' σ'
      = (Done frame, σ').
Proof.
  assert (Forall (λ ev, is_batch ev = false)
            [KeyMsg "down"; TimeMsg 0; WindowSizeMsg 80 24;
             ClustersPtrMsg (AddrOf (clusters startModel)); KeyMsg "q"])
    as Hevs by (repeat constructor).
  assert (∀ strs, is_Some (plainBox 80 (24 ÷ 3) strs)) as Hhub
    by (intros strs; eexists; reflexivity).
  assert (∀ strs, is_Some (plainBox (80 ÷ 2) (24 ÷ 2) strs)) as Hdr
    by (intros strs; eexists; reflexivity).
  split; [exact Hevs|]. split; [exact Hhub|]. split; [exact Hdr|].
  destruct (View_renders_after_initialModel unit () () plainBox plainVertical
              plainHorizontal "hub" "missing" "dr2" emptyState _
              [sampleFetch; λ _, None; sampleFetch] Hevs)
    as (m & σ & Hinit & Hview).
  exists m, σ. split; [exact Hinit|]. exact (Hview Hhub Hdr).
Defined.

Lemma View_shows_only_the_status_fields_witness :
  3 ≤ len (clusters startModel) ∧
  shown_alike true (newClusterInfo "Hub" "hub" true false)
    (newClusterInfo "Hub" "elsewhere" false true) ∧
  shown_alike false (newClusterInfo "DR1" "dr1" false true)
    (set_DRPCs ["drpc-a"] (newClusterInfo "DR1" "dr1" true false)) ∧
  (View unit () () plainBox plainVertical plainHorizontal startModel
     (startState "hub" "dr1" "dr2")).1
  = (View unit () () plainBox plainVertical plainHorizontal startModel
       {| heap := {[ 1%positive :=
                       [newClusterInfo "Hub" "elsewhere" false true;
                        set_DRPCs ["drpc-a"]
                          (newClusterInfo "DR1" "dr1" true false);
                        newClusterInfo "DR2" "dr2" false true] ]};
          calls := [NodeList] |}).1.
Proof.
  assert (3 ≤ len (clusters startModel)) as Hlen by (simpl; lia).
  assert (shown_alike true (newClusterInfo "Hub" "hub" true false)
            (newClusterInfo "Hub" "elsewhere" false true)) as H0
    by (repeat split).
  assert (shown_alike false (newClusterInfo "DR1" "dr1" false true)
            (set_DRPCs ["drpc-a"] (newClusterInfo "DR1" "dr1" true false)))
    as H1 by (repeat split; discriminate).
  split; [exact Hlen|]. split; [exact H0|]. split; [exact H1|].
  apply (View_shows_only_the_status_fields unit () () plainBox plainVertical
           plainHorizontal startModel _ _
           (newClusterInfo "Hub" "hub" true false)
           (newClusterInfo "DR1" "dr1" false true)
           (newClusterInfo "DR2" "dr2" false true)
           (newClusterInfo "Hub" "elsewhere" false true)
           (set_DRPCs ["drpc-a"] (newClusterInfo "DR1" "dr1" true false))
           (newClusterInfo "DR2" "dr2" false true) Hlen);
    try (vm_compute; reflexivity); try assumption.
  repeat split; discriminate.
Defined.

Lemma main_go_poll_of_a_connected_cluster_witness :
  cell (startState0 "hub" "missing" "dr2") (elem (clusters startModel) 0)
  = Some {| MainGo.name := "Hub"; MainGo.status := "Unknown";
            MainGo.context := "hub"; MainGo.namespaces := [];
            MainGo.hub := true; MainGo.managedcluster := false |} ∧
  sampleFetch "hub" = Some healthyClient ∧
  ∃ σ' c',
    MainGo.updateClusterData sampleFetch (elem (clusters startModel) 0)
      (startState0 "hub" "missing" "dr2") = (Done (), σ') ∧
    cell σ' (elem (clusters startModel) 0) = Some c' ∧
    calls σ' = [NodeList; NamespaceList] ∧
    MainGo.status c' = "Healthy" ∧
    MainGo.namespaces c' = ["ramen-system"; "ramen-ops"].
Proof.
  split; [vm_compute; reflexivity|]. split; [reflexivity|].
  destruct (main_go_poll_of_a_connected_cluster sampleFetch
              (startState0 "hub" "missing" "dr2")
              (elem (clusters startModel) 0) _ healthyClient
              eq_refl eq_refl)
    as (σ' & c' & Hrun & Hcell & Hcalls & Hst & Hns & _).
  exists σ', c'. split; [exact Hrun|]. split; [exact Hcell|].
  split; [exact Hcalls|]. split; [exact Hst|].
  rewrite Hns. vm_compute. reflexivity.
Defined.

Lemma main_go_poll_panics_on_nil_clientset_witness :
  cell (startState0 "hub" "missing" "dr2") (elem (clusters startModel) 1)
  = Some {| MainGo.name := "DR1"; MainGo.status := "Unknown";
            MainGo.context := "missing"; MainGo.namespaces := [];
            MainGo.hub := false; MainGo.managedcluster := true |} ∧
  sampleFetch "missing" = None ∧
  ∃ σ' c',
    MainGo.updateClusterData sampleFetch (elem (clusters startModel) 1)
      (startState0 "hub" "missing" "dr2") = (Panic, σ') ∧
    cell σ' (elem (clusters startModel) 1) = Some c' ∧
    MainGo.status c' = "Error" ∧
    MainGo.namespaces c' = [] ∧
    calls σ' = calls (startState0 "hub" "missing" "dr2").
Proof.
  split; [vm_compute; reflexivity|]. split; [reflexivity|].
  exact (main_go_poll_panics_on_nil_clientset sampleFetch
           (startState0 "hub" "missing" "dr2")
           (elem (clusters startModel) 1) _ eq_refl eq_refl).
Defined.
